(** * linkedin_job_scraper: the harvesting core of [linkedin_job_scraper.py]

    A shallow embedding of the deduplicating, resumable scraping loop:
    the link normalizer, the CSV record store with its seen-set, the
    progress file, [extract_and_save_jobs] and the main loop of
    [scrape_linkedin_jobs].

    Python [str] values are modelled as Rocq strings holding the UTF-8
    bytes of the text.  All separators the program searches for are ASCII,
    and UTF-8 never produces an ASCII byte inside a multi-byte character,
    so substring search and splitting agree on the two representations. *)

From stdpp Require Import gmap strings list.
From Stdlib Require Import Ascii ZArith Lia.

Open Scope string_scope.
Open Scope list_scope.

(** ** Python string primitives *)

Module PyStr.

(** [s.startswith(p)]. *)
Fixpoint startswith (p s : string) : bool :=
  match p, s with
  | EmptyString, _ => true
  | String _ _, EmptyString => false
  | String a p', String b s' => Ascii.eqb a b && startswith p' s'
  end.

(** [p in s]: some suffix of [s] starts with [p]. *)
Fixpoint contains (p s : string) : bool :=
  startswith p s ||
  match s with
  | EmptyString => false
  | String _ s' => contains p s'
  end.

(** [s.split(sep)] for a non-empty [sep], scanning left to right for
    non-overlapping occurrences.  [skip] counts the characters of the
    occurrence just found that are still to be consumed, [cur] is the
    piece being accumulated. *)
Fixpoint split_from (sep : string) (skip : nat) (cur s : string) : list string :=
  match s with
  | EmptyString => [cur]
  | String c s' =>
      match skip with
      | S k => split_from sep k cur s'
      | O =>
          if startswith sep s
          then cur :: split_from sep (String.length sep - 1) "" s'
          else split_from sep 0 (cur +:+ String c "") s'
      end
  end.

Definition split (sep s : string) : list string := split_from sep 0 "" s.

(** Truthiness of a string: [bool(s)]. *)
Definition truthy (s : string) : bool :=
  match s with EmptyString => false | _ => true end.

(** Occurrence test for a single character. *)
Fixpoint has_char (c : ascii) (s : string) : bool :=
  match s with
  | EmptyString => false
  | String a s' => Ascii.eqb a c || has_char c s'
  end.

(** Number of occurrences of a character. *)
Fixpoint count_char (c : ascii) (s : string) : nat :=
  match s with
  | EmptyString => 0
  | String a s' => (if Ascii.eqb a c then 1 else 0) + count_char c s'
  end.

(** The text before the first occurrence of [c] (all of [s] if none). *)
Fixpoint before (c : ascii) (s : string) : string :=
  match s with
  | EmptyString => ""
  | String a s' => if Ascii.eqb a c then "" else String a (before c s')
  end.

End PyStr.

(** ** Identity normalizer *)

Definition job_view_marker : string := "linkedin.com/jobs/view/".
Definition job_view_base : string := "https://www.linkedin.com/jobs/view/".

(** [normalize_linkedin_job_url(url)], lines 51-68. *)
Definition normalize_linkedin_job_url (url : string) : string :=
  if PyStr.contains job_view_marker url then
    let parts := PyStr.split job_view_marker url in
    if (1 <? length parts)%nat then
      let job_id_and_rest := nth 1 parts "" in
      let job_id :=
        hd "" (PyStr.split "?" (hd "" (PyStr.split "/" job_id_and_rest))) in
      job_view_base +:+ job_id +:+ "/"
    else url
  else url.


(** ** Data model *)

(** A CSV row, as [csv.reader] yields it and [csv_writer.writerow] takes it. *)
Definition row : Type := list string.

Definition headers : row := ["Title"; "Company"; "Location"; "Link"; "Post Time"].

(** Outcome of [dateutil.parser.parse(text, fuzzy=True)] on the text of the
    [time] element: the parsed date rendered by [strftime('%Y-%m-%d')], or
    [ValueError]. *)
Inductive listdate : Type :=
| DateParsed (text formatted : string)
| DateUnparsed (text : string).

(** What the field locators of lines 162-186 find in one job card; [None]
    is an element (or the [href] attribute) that is not there. *)
Record job_card : Type := JobCard {
  card_title : option string;
  card_company : option string;
  card_location : option string;
  card_href : option string;
  card_listdate : option listdate
}.

(** What [extract_and_save_jobs] gets from the driver and the HTML parser. *)
Inductive page_view : Type :=
| InnerHtmlError                 (* execute_script raises WebDriverException *)
| NoResultsList                  (* no [ul.jobs-search__results-list] *)
| JobCards (cards : list job_card).

(** The [scroll_id] argument: an integer, or the string ["resume_check"]. *)
Inductive scroll_id : Type :=
| ScrollNo (n : Z)
| ResumeCheck.

(** Observable actions of a run, in the order they happen. *)
Inductive event : Type :=
| WriteHeader                              (* csv_writer.writerow(headers) *)
| Attempt (n : Z)                          (* a loop iteration starts *)
| Extracting (sid : scroll_id)             (* extract_and_save_jobs is entered *)
| WriteRow (r : row)                       (* csv_writer.writerow([...]) *)
| Extracted (sid : scroll_id) (total : Z)  (* extract_and_save_jobs returns *)
| SaveProgress (n : Z).                    (* save_progress(n) *)

(** A Python call either returns or raises. *)
Inductive exn : Type :=
| CsvError
| ValueError
| WebDriverException.

Inductive outcome (A : Type) : Type :=
| Returns (a : A)
| Raises (e : exn).
Arguments Returns {A} a.
Arguments Raises {A} e.

(** ** Effects

    [existing_links] is one Python set shared by the main function and every
    call of [extract_and_save_jobs], which mutates it in place; the CSV
    writer and the progress file are only written.  A computation therefore
    takes the current set and gives back its result, the updated set and the
    actions it performed. *)

Definition M (A : Type) : Type := gset string → A * gset string * list event.

Definition ret {A} (a : A) : M A := λ links, (a, links, []).

Definition bind {A B} (m : M A) (f : A → M B) : M B :=
  λ links,
    let '(a, links1, t1) := m links in
    let '(b, links2, t2) := f a links1 in
    (b, links2, t1 ++ t2).

Notation "'let*' x ':=' m 'in' k" := (bind m (λ x, k))
  (at level 10, x pattern, m at level 100, k at level 200,
   format "'[v' 'let*'  x  ':='  m  'in' '/' k ']'").

Definition emit (e : event) : M unit := λ links, (tt, links, [e]).

(** [key in existing_links]. *)
Definition is_seen (key : string) : M bool :=
  λ links, (bool_decide (key ∈ links), links, []).

(** [existing_links.add(key)]. *)
Definition add_link (key : string) : M unit :=
  λ links, (tt, {[key]} ∪ links, []).

(** ** Progress file *)

(** The progress file as [load_progress] sees it. *)
Inductive progress_file : Type :=
| ProgressMissing            (* os.path.exists is False *)
| ProgressBlank              (* nothing left after strip() *)
| ProgressInt (k : Z)        (* int(content) = k *)
| ProgressGarbage.           (* IOError on reading, or ValueError from int() *)

(** [load_progress()], lines 36-46. *)
Definition load_progress (f : progress_file) : Z :=
  match f with
  | ProgressInt k => k
  | ProgressMissing | ProgressBlank | ProgressGarbage => 0
  end.

(** [save_progress(n)], lines 27-34 (the write is taken to succeed). *)
Definition save_progress (current_scrolled_pages : Z) : M unit :=
  emit (SaveProgress current_scrolled_pages).

(** The progress file left behind by a run that performed [t]. *)
Fixpoint progress_after (f : progress_file) (t : list event) : progress_file :=
  match t with
  | [] => f
  | SaveProgress n :: t' => progress_after (ProgressInt n) t'
  | _ :: t' => progress_after f t'
  end.

(** ** Record store *)

(** One step of iterating [csv.reader]: a row, or an exception. *)
Inductive csv_line : Type :=
| Line (r : row)
| Unparsable.

Inductive csv_file : Type :=
| CsvMissing
| CsvFile (lines : list csv_line).

(** [header.index("Link")]. *)
Fixpoint index_of (x : string) (l : row) : option nat :=
  match l with
  | [] => None
  | y :: l' => if String.eqb y x then Some 0%nat else S <$> index_of x l'
  end.

(** The loop of lines 86-90; an exception ends it with the set built so far. *)
Fixpoint collect_links (link_index : nat) (lines : list csv_line)
    (existing_links : gset string) : gset string * option exn :=
  match lines with
  | [] => (existing_links, None)
  | Unparsable :: _ => (existing_links, Some CsvError)
  | Line r :: rest =>
      if (link_index <? length r)%nat
      then collect_links link_index rest
             ({[normalize_linkedin_job_url (nth link_index r "")]} ∪ existing_links)
      else collect_links link_index rest existing_links
  end.

(** The [try] body of lines 76-90. *)
Definition read_existing_links (lines : list csv_line) : gset string * option exn :=
  match lines with
  | [] => (∅, None)                          (* next(reader, None) is None *)
  | Unparsable :: _ => (∅, Some CsvError)
  | Line header :: rest =>
      match header with
      | [] => (∅, None)                      (* [if header:] is false *)
      | _ =>
          match index_of "Link" header with
          | None => (∅, None)                (* ValueError handler: return *)
          | Some link_index => collect_links link_index rest ∅
          end
      end
  end.

(** [get_existing_job_links(filename)], lines 71-93.  The handler of lines
    91-92 logs any exception of the body and falls through to the final
    [return existing_links]. *)
Definition get_existing_job_links (f : csv_file) : outcome (gset string) :=
  match f with
  | CsvMissing => Returns ∅
  | CsvFile lines =>
      let '(existing_links, _) := read_existing_links lines in
      Returns existing_links
  end.

(** ** Extraction *)

Definition text_or_na (o : option string) : string := default "N/A" o.

Definition post_time_of (d : option listdate) : string :=
  match d with
  | None => "N/A"
  | Some (DateParsed _ formatted) => formatted
  | Some (DateUnparsed text) => text
  end.

(** The [Link] column of a row, and the identity key it stands for. *)
Definition row_link (r : row) : string := nth 3 r "".
Definition row_key (r : row) : string := normalize_linkedin_job_url (row_link r).

(** The body of the loop over job cards, lines 160-199. *)
Definition save_card (c : job_card) (scraped_job_counter : Z) : M Z :=
  let title := text_or_na (card_title c) in
  let company := text_or_na (card_company c) in
  let job_location := text_or_na (card_location c) in
  let job_link := text_or_na (card_href c) in
  let post_time := post_time_of (card_listdate c) in
  let normalized_job_link := normalize_linkedin_job_url job_link in
  let* known := is_seen normalized_job_link in
  if PyStr.truthy normalized_job_link && negb known then
    let* _ := emit (WriteRow [title; company; job_location; normalized_job_link; post_time]) in
    let* _ := add_link normalized_job_link in
    ret (scraped_job_counter + 1)%Z
  else
    ret scraped_job_counter.

Fixpoint save_cards (job_cards : list job_card) (scraped_job_counter : Z) : M Z :=
  match job_cards with
  | [] => ret scraped_job_counter
  | c :: rest =>
      let* counter := save_card c scraped_job_counter in
      save_cards rest counter
  end.

(** [extract_and_save_jobs(driver, csv_writer, existing_links,
    scraped_job_counter, scroll_id)], lines 127-201: the updated counter and
    the number of job cards on the page. *)
Definition extract_and_save_jobs (view : page_view) (scraped_job_counter : Z)
    (sid : scroll_id) : M (Z * Z) :=
  let* _ := emit (Extracting sid) in
  match view with
  | InnerHtmlError | NoResultsList =>
      let* _ := emit (Extracted sid 0) in
      ret (scraped_job_counter, 0%Z)
  | JobCards job_cards =>
      let total_jobs_on_page_html := Z.of_nat (length job_cards) in
      let* counter := save_cards job_cards scraped_job_counter in
      let* _ := emit (Extracted sid total_jobs_on_page_html) in
      ret (counter, total_jobs_on_page_html)
  end.

(** ** The scraping session *)

(** What one iteration of the main loop meets: an exception that escapes
    the iteration before extraction (the driver fails while scrolling), or
    the outcome of the "See more jobs" click and the page then extracted. *)
Inductive step_obs : Type :=
| StepFault
| StepView (clicked_see_more : bool) (view : page_view).

(** The browser as the run meets it. *)
Record session : Type := Session {
  driver_starts : bool;          (* uc.Chrome(options) succeeds *)
  page_loads : bool;             (* navigation and the wait for the search bar succeed *)
  first_view : page_view;        (* the page at the initial or resume-check extraction *)
  feed : nat → step_obs          (* the i-th iteration of the loop, from 0 *)
}.

(** The variables the main loop carries from one iteration to the next. *)
Record loop_vars : Type := LoopVars {
  scraped_job_count : Z;
  last_total_jobs_on_page : Z;
  no_new_jobs_consecutive_scrolls : Z
}.

(** How the [for] loop of line 324 is left. *)
Inductive loop_exit : Type :=
| RangeExhausted
| StallBreak
| StepException.

Definition MAX_NO_NEW_JOBS_CONSECUTIVE_SCROLLS : Z := 5.

(** One iteration of the main loop, lines 325-378: the variables after it
    and, if the loop is left, how. *)
Definition loop_body (current_scroll_attempt : Z) (obs : step_obs) (v : loop_vars)
    : M (loop_vars * option loop_exit) :=
  let* _ := emit (Attempt current_scroll_attempt) in
  match obs with
  | StepFault => ret (v, Some StepException)
  | StepView clicked_see_more view =>
      let prev_scraped_count := scraped_job_count v in
      let* (scraped, new_total_jobs_on_page) :=
        extract_and_save_jobs view prev_scraped_count (ScrollNo current_scroll_attempt) in
      let content_increased := (last_total_jobs_on_page v <? new_total_jobs_on_page)%Z in
      let jobs_added_to_csv := (prev_scraped_count <? scraped)%Z in
      let (stalled, stop) :=
        if content_increased || jobs_added_to_csv || clicked_see_more
        then (0%Z, false)
        else
          let stalled := (no_new_jobs_consecutive_scrolls v + 1)%Z in
          (stalled, (MAX_NO_NEW_JOBS_CONSECUTIVE_SCROLLS <=? stalled)%Z) in
      if stop
      then ret (LoopVars scraped (last_total_jobs_on_page v) stalled, Some StallBreak)
      else
        let* _ := save_progress current_scroll_attempt in
        ret (LoopVars scraped new_total_jobs_on_page stalled, None)
  end.

(** The main loop, line 324, over the [remaining] elements of
    [range(start_scroll_attempt, max_scroll_attempts + 1)]; [i] counts the
    iterations made so far. *)
Fixpoint scroll_loop (feed : nat → step_obs) (remaining : nat)
    (current_scroll_attempt : Z) (i : nat) (v : loop_vars) : M (loop_vars * loop_exit) :=
  match remaining with
  | O => ret (v, RangeExhausted)
  | S remaining' =>
      let* (v', leaving) := loop_body current_scroll_attempt (feed i) v in
      match leaving with
      | Some exit => ret (v', exit)
      | None => scroll_loop feed remaining' (current_scroll_attempt + 1)%Z (S i) v'
      end
  end.

(** [len(existing_links)]. *)
Definition len_existing_links : M Z :=
  λ links, (Z.of_nat (size links), links, []).

(** Number of elements of [range(lo, hi)]. *)
Definition range_len (lo hi : Z) : nat := Z.to_nat (hi - lo).

Definition csv_is_empty (f : csv_file) : bool :=
  match f with
  | CsvMissing | CsvFile [] => true
  | CsvFile (_ :: _) => false
  end.

(** The [try] block of [scrape_linkedin_jobs], lines 254-378; its result is
    the value [scraped_job_count] holds when the block is left, normally or
    by an exception, together with the way the loop was left if it was
    reached. *)
Definition scrape_try (output_file : csv_file) (s : session)
    (start_scroll_attempt max_scroll_attempts : Z) : M (Z * option loop_exit) :=
  let* _ := (if csv_is_empty output_file then emit WriteHeader else ret tt) in
  if negb (page_loads s) then ret (0%Z, None)
  else
    let* (scraped, last_total) :=
      if (start_scroll_attempt =? 1)%Z then
        let* (scraped, last_total) :=
          extract_and_save_jobs (first_view s) 0%Z (ScrollNo 0) in
        let* _ := save_progress 1 in
        ret (scraped, last_total)
      else
        let* scraped := len_existing_links in
        let* (_, last_total) :=
          extract_and_save_jobs (first_view s) scraped ResumeCheck in
        ret (scraped, last_total) in
    let* (v, exit) :=
      scroll_loop (feed s)
        (range_len start_scroll_attempt (max_scroll_attempts + 1))
        start_scroll_attempt 0%nat (LoopVars scraped last_total 0) in
    ret (scraped_job_count v, Some exit).

(** What a run leaves behind. *)
Record run : Type := Run {
  returned : Z;                    (* the value of [return scraped_job_count] *)
  exit_of : option loop_exit;      (* how the main loop was left, if reached *)
  links_of : gset string;          (* [existing_links] at the end *)
  performed : list event           (* the actions, in order *)
}.

(** [scrape_linkedin_jobs(keyword, location, output_filename,
    max_scroll_attempts)], lines 206-405. *)
Definition scrape_linkedin_jobs (output_file : csv_file) (progress : progress_file)
    (s : session) (max_scroll_attempts : Z) : outcome run :=
  if negb (driver_starts s) then Returns (Run 0 None ∅ [])
  else
    match get_existing_job_links output_file with
    | Raises e => Raises e
    | Returns existing_links =>
        let completed_scrolls := load_progress progress in
        let start_scroll_attempt := (completed_scrolls + 1)%Z in
        let '(result, links, t) :=
          scrape_try output_file s start_scroll_attempt max_scroll_attempts
            existing_links in
        Returns (Run (fst result) (snd result) links t)
    end.

(** ** Reading a trace *)

(** The records appended to the CSV file by the actions [t]. *)
Fixpoint rows_written (t : list event) : list row :=
  match t with
  | [] => []
  | WriteRow r :: t' => r :: rows_written t'
  | _ :: t' => rows_written t'
  end.

(** The lines appended to the CSV file by the actions [t], header included. *)
Fixpoint lines_written (t : list event) : list csv_line :=
  match t with
  | [] => []
  | WriteHeader :: t' => Line headers :: lines_written t'
  | WriteRow r :: t' => Line r :: lines_written t'
  | _ :: t' => lines_written t'
  end.

(** The CSV file after a run that opened it for appending and did [t]. *)
Definition csv_after (f : csv_file) (t : list event) : csv_file :=
  match f with
  | CsvMissing => CsvFile (lines_written t)
  | CsvFile lines => CsvFile (lines ++ lines_written t)
  end.

(** The loop iterations started, by number. *)
Fixpoint attempts (t : list event) : list Z :=
  match t with
  | [] => []
  | Attempt n :: t' => n :: attempts t'
  | _ :: t' => attempts t'
  end.

(** The numbers saved to the progress file. *)
Fixpoint saves (t : list event) : list Z :=
  match t with
  | [] => []
  | SaveProgress n :: t' => n :: saves t'
  | _ :: t' => saves t'
  end.

(** A sequence of extraction steps on the same set and writer. *)
Fixpoint extract_steps (views : list (page_view * scroll_id))
    (scraped_job_counter : Z) : M Z :=
  match views with
  | [] => ret scraped_job_counter
  | (view, sid) :: rest =>
      let* (counter, _) := extract_and_save_jobs view scraped_job_counter sid in
      extract_steps rest counter
  end.

(** ** Vocabulary of the statements *)

(** The identity key of a job card and the row written for it. *)
Definition card_key (c : job_card) : string :=
  normalize_linkedin_job_url (text_or_na (card_href c)).

Definition card_row (c : job_card) : row :=
  [text_or_na (card_title c); text_or_na (card_company c);
   text_or_na (card_location c); card_key c; post_time_of (card_listdate c)].

(** The rows a pass over [job_cards] appends when it starts from [links]. *)
Fixpoint new_rows (job_cards : list job_card) (links : gset string) : list row :=
  match job_cards with
  | [] => []
  | c :: rest =>
      if PyStr.truthy (card_key c) && negb (bool_decide (card_key c ∈ links))
      then card_row c :: new_rows rest ({[card_key c]} ∪ links)
      else new_rows rest links
  end.

Definition view_cards (view : page_view) : list job_card :=
  match view with
  | JobCards job_cards => job_cards
  | InnerHtmlError | NoResultsList => []
  end.

Definition view_total (view : page_view) : Z := Z.of_nat (length (view_cards view)).

(** The actions of one complete call of [extract_and_save_jobs]. *)
Definition batch (sid : scroll_id) (rows : list row) (total : Z) : list event :=
  Extracting sid :: map WriteRow rows ++ [Extracted sid total].


(** The numbers [lo, lo+1, ..., lo+n-1]. *)
Fixpoint Zseq (lo : Z) (n : nat) : list Z :=
  match n with
  | O => []
  | S n' => lo :: Zseq (lo + 1)%Z n'
  end.

(** The job id cut out of a link has neither a slash nor a question mark. *)
Definition clean_id (j : string) : Prop :=
  PyStr.has_char "/" j = false ∧ PyStr.has_char "?" j = false.

(** A computation respects deduplication: whatever set it starts from, the
    rows it writes carry pairwise different links, none of them in the set
    it started from, each link being its own identity key, and the set it
    ends with is the starting set plus exactly those links. *)
Definition dedups {A} (m : M A) : Prop :=
  ∀ links,
    let rows := rows_written (m links).2 in
    NoDup (map row_link rows)
    ∧ (∀ r, r ∈ rows → (row_link r ∉ links) ∧ row_key r = row_link r ∧ row_link r ≠ "")
    ∧ ((m links).1).2 = list_to_set (map row_link rows) ∪ links.

(** The seen-set a run starts from. *)
Definition existing_of (f : csv_file) : gset string :=
  match f with
  | CsvMissing => ∅
  | CsvFile lines => (read_existing_links lines).1
  end.



(** The identity keys of the records of a store with the standard header. *)
Definition store_keys (records : list row) : gset string :=
  list_to_set (map row_key (filter (λ r, (3 < length r)%nat) records)).

(** A store as this program leaves it: absent, empty, or the standard
    header followed by records. *)
Definition standard_store (f : csv_file) : Prop :=
  f = CsvMissing ∨ f = CsvFile [] ∨ ∃ records, f = CsvFile (Line headers :: map Line records).

(** ** Fixtures *)

(** A page that shows nothing and never changes. *)
Definition still_feed : nat → step_obs := λ _, StepView false (JobCards []).

(** A browser that starts and loads the page, which then stays empty. *)
Definition still_session : session := Session true true (JobCards []) still_feed.

(** A job card with a title and nothing else: no link element. *)
Definition linkless (title : string) : job_card :=
  JobCard (Some title) None None None None.

(** A job card whose link element has an empty [href]. *)
Definition empty_href (title : string) : job_card :=
  JobCard (Some title) None None (Some "") None.

(** Two records as an earlier run left them in the store. *)
Definition two_records : list row :=
  [ ["Data Analyst"; "Acme"; "Riyadh"; "https://www.linkedin.com/jobs/view/1/"; "2024-05-01"];
    ["Data Engineer"; "Globex"; "Jeddah"; "https://www.linkedin.com/jobs/view/2/"; "2024-05-02"] ].

(** A job card with a tracked link to the job of the given id. *)
Definition job (id : string) : job_card :=
  JobCard (Some ("Job " +:+ id)) (Some "Acme") (Some "Riyadh")
    (Some ("https://www.linkedin.com/jobs/view/" +:+ id +:+ "/?refId=search")) None.

Definition ten_jobs : list job_card :=
  map job ["101"; "102"; "103"; "104"; "105"; "106"; "107"; "108"; "109"; "110"].

Definition twelve_jobs : list job_card := ten_jobs ++ map job ["111"; "112"].

(** A page with ten jobs at first, and the same ten plus two more at every
    iteration of the loop. *)
Definition growing_session : session :=
  Session true true (JobCards ten_jobs) (λ _, StepView false (JobCards twelve_jobs)).

(** ** Link shapes *)

(** What may follow the job id in a link for the id to be cut out whole:
    nothing, a query, or a slash that is not followed by ["jobs/view/"]. *)
Definition id_ends (tail : string) : bool :=
  match tail with
  | EmptyString => true
  | String c rest =>
      Ascii.eqb c "?" || (Ascii.eqb c "/" && negb (PyStr.startswith "jobs/view/" rest))
  end.

(** The marker without its final slash. *)
Definition job_view_marker_init : string := "linkedin.com/jobs/view".

(** ** Stores and sessions *)

Definition line_row (l : csv_line) : option row :=
  match l with
  | Line r => Some r
  | Unparsable => None
  end.

(** The records of a store, its first line apart. *)
Definition store_records (f : csv_file) : list row :=
  match f with
  | CsvMissing | CsvFile [] => []
  | CsvFile (_ :: lines) => omap line_row lines
  end.

(** The job cards a session shows: on its first page, or on the page of some
    iteration of the loop. *)
Definition shown (s : session) (c : job_card) : Prop :=
  c ∈ view_cards (first_view s)
  ∨ ∃ i clicked view, feed s i = StepView clicked view ∧ c ∈ view_cards view.

(** ** Scrolling *)

(** The loop of [scroll_to_bottom_human_like], lines 110-121, with
    [remaining] iterations left before [max_scroll_attempts_per_batch] is
    reached.  [heights 0] is the document height read before any scroll and
    [heights (S i)] the one read after the scroll numbered [i] from 0.  The
    result is the returned boolean and the number of scrolls made. *)
Fixpoint scroll_segments (heights : nat → Z) (remaining scroll_attempts : nat)
    (last_height : Z) : bool * nat :=
  match remaining with
  | O => (false, scroll_attempts)
  | S remaining' =>
      let new_height := heights (S scroll_attempts) in
      if (new_height =? last_height)%Z
      then (true, S scroll_attempts)
      else scroll_segments heights remaining' (S scroll_attempts) new_height
  end.

(** [scroll_to_bottom_human_like(driver)], lines 101-124. *)
Definition scroll_to_bottom_human_like (heights : nat → Z) : bool * nat :=
  let last_height := heights 0%nat in
  let max_scroll_attempts_per_batch := 3%nat in
  scroll_segments heights max_scroll_attempts_per_batch 0 last_height.

(** ** The main block *)




(** * Properties *)

(* [set_solver] clears hypotheses by name and warns when one is gone. *)
#[local] Set Warnings "-clear-no-such-hyp".

#[local] Arguments String.append !_ _ / : simpl nomatch.

(** ** Strings *)

Section StringFacts.

Local Abbreviation slash := "/"%char.

Lemma str_app_nil_r (s : string) : s +:+ "" = s.
Proof. induction s as [|a s IH]; simpl; [done | by rewrite IH]. Qed.

Lemma str_app_assoc (s t u : string) : (s +:+ t) +:+ u = s +:+ (t +:+ u).
Proof. induction s as [|a s IH]; simpl; [done | by rewrite IH]. Qed.

Lemma count_char_app c (s t : string) :
  PyStr.count_char c (s +:+ t) = (PyStr.count_char c s + PyStr.count_char c t)%nat.
Proof. induction s as [|a s IH]; simpl; [done | rewrite IH; lia]. Qed.

Lemma count_char_absent c (s : string) :
  PyStr.has_char c s = false → PyStr.count_char c s = 0%nat.
Proof.
  induction s as [|a s IH]; simpl; [done |].
  intros [Ha Hs]%orb_false_elim. rewrite Ha. by rewrite IH.
Qed.

Lemma startswith_app (p s : string) : PyStr.startswith p (p +:+ s) = true.
Proof.
  induction p as [|a p IH]; simpl; [done |].
  by rewrite Ascii.eqb_refl, IH.
Qed.

Lemma startswith_split (p s : string) :
  PyStr.startswith p s = true → ∃ r, s = p +:+ r.
Proof.
  revert s. induction p as [|a p IH]; intros s; simpl.
  - by exists s.
  - destruct s as [|b s]; [done |].
    intros [Hab Hps]%andb_prop. apply Ascii.eqb_eq in Hab as ->.
    destruct (IH _ Hps) as [r ->]. by exists r.
Qed.

Lemma contains_startswith (p s : string) :
  PyStr.startswith p s = true → PyStr.contains p s = true.
Proof. intros H. destruct s; simpl; by rewrite H. Qed.

Lemma contains_app (p a b : string) : PyStr.contains p (a +:+ (p +:+ b)) = true.
Proof.
  induction a as [|c a IH]; simpl.
  - apply contains_startswith, startswith_app.
  - rewrite IH. apply orb_true_r.
Qed.

(** An occurrence of the marker carries three slashes. *)
Lemma marker_needs_slashes (s : string) :
  PyStr.startswith job_view_marker s = true → (3 ≤ PyStr.count_char slash s)%nat.
Proof.
  intros [r ->]%startswith_split. rewrite count_char_app.
  change (PyStr.count_char slash job_view_marker) with 3%nat. lia.
Qed.

(** Splitting at the marker leaves a text with a single, final slash whole. *)
Lemma split_marker_tail (cur j : string) :
  PyStr.has_char slash j = false →
  PyStr.split_from job_view_marker 0 cur (j +:+ "/") = [cur +:+ (j +:+ "/")].
Proof.
  revert cur. induction j as [|a j IH]; intros cur Hj.
  - reflexivity.
  - simpl in Hj. apply orb_false_elim in Hj as [Ha Hj].
    change (String a j +:+ "/") with (String a (j +:+ "/")).
    cbn [PyStr.split_from].
    destruct (PyStr.startswith job_view_marker (String a (j +:+ "/"))) eqn:E.
    + apply marker_needs_slashes in E. simpl in E.
      rewrite Ha, count_char_app, (count_char_absent _ _ Hj) in E.
      simpl in E. lia.
    + rewrite (IH _ Hj), str_app_assoc. reflexivity.
Qed.

(** The first piece of a split at a single character. *)
Lemma split_char_hd (c : ascii) (cur s : string) :
  hd "" (PyStr.split_from (String c "") 0 cur s) = cur +:+ PyStr.before c s.
Proof.
  revert cur. induction s as [|a s IH]; intros cur; simpl.
  - by rewrite str_app_nil_r.
  - rewrite (Ascii.eqb_sym c a), andb_true_r.
    destruct (Ascii.eqb a c); simpl.
    + by rewrite str_app_nil_r.
    + rewrite IH, str_app_assoc. reflexivity.
Qed.

Lemma before_absent c (s : string) : PyStr.has_char c (PyStr.before c s) = false.
Proof.
  induction s as [|a s IH]; simpl; [done |].
  destruct (Ascii.eqb a c) eqn:E; simpl; [done | by rewrite E, IH].
Qed.

Lemma before_keeps_absent c d (s : string) :
  PyStr.has_char d s = false → PyStr.has_char d (PyStr.before c s) = false.
Proof.
  induction s as [|a s IH]; simpl; [done |].
  intros [Ha Hs]%orb_false_elim.
  destruct (Ascii.eqb a c); simpl; [done | by rewrite Ha, IH].
Qed.

Lemma before_whole c (s : string) :
  PyStr.has_char c s = false → PyStr.before c s = s.
Proof.
  induction s as [|a s IH]; simpl; [done |].
  intros [Ha Hs]%orb_false_elim. rewrite Ha. by rewrite IH.
Qed.

Lemma before_app_sep c (s : string) :
  PyStr.has_char c s = false → PyStr.before c (s +:+ String c "") = s.
Proof.
  induction s as [|a s IH]; simpl.
  - by rewrite Ascii.eqb_refl.
  - intros [Ha Hs]%orb_false_elim. rewrite Ha. by rewrite IH.
Qed.

End StringFacts.

(** ** The normalizer *)

Example normalize_tracking_parameters :
  normalize_linkedin_job_url
    "https://www.linkedin.com/jobs/view/3929420956/?alternateChannel=search&refId=abc"
  = "https://www.linkedin.com/jobs/view/3929420956/".
Proof. reflexivity. Qed.

Example normalize_query_without_slash :
  normalize_linkedin_job_url
    "https://sa.linkedin.com/jobs/view/data-analyst-at-acme-42?position=1&pageNum=0"
  = "https://www.linkedin.com/jobs/view/data-analyst-at-acme-42/".
Proof. reflexivity. Qed.

Example normalize_placeholder : normalize_linkedin_job_url "N/A" = "N/A".
Proof. reflexivity. Qed.

Example normalize_marker_twice :
  normalize_linkedin_job_url "linkedin.com/jobs/view/linkedin.com/jobs/view/7"
  = "https://www.linkedin.com/jobs/view//".
Proof. reflexivity. Qed.

Lemma normalize_canonical (j : string) :
  clean_id j →
  normalize_linkedin_job_url (job_view_base +:+ j +:+ "/") = job_view_base +:+ j +:+ "/".
Proof.
  intros [Hs Hq]. unfold normalize_linkedin_job_url.
  assert (Hc : PyStr.contains job_view_marker (job_view_base +:+ j +:+ "/") = true).
  { change job_view_base with ("https://www." +:+ job_view_marker).
    rewrite !str_app_assoc. apply contains_app. }
  rewrite Hc.
  assert (Hp : PyStr.split job_view_marker (job_view_base +:+ j +:+ "/")
               = ["https://www."; j +:+ "/"]).
  { unfold PyStr.split, job_view_base, job_view_marker. simpl.
    fold job_view_marker. by rewrite split_marker_tail. }
  rewrite Hp. simpl.
  unfold PyStr.split. rewrite !split_char_hd. simpl.
  rewrite (before_app_sep _ _ Hs), (before_whole _ _ Hq). reflexivity.
Qed.

Lemma normalize_shape (u : string) :
  normalize_linkedin_job_url u = u ∨
  ∃ j, clean_id j ∧ normalize_linkedin_job_url u = job_view_base +:+ j +:+ "/".
Proof.
  unfold normalize_linkedin_job_url.
  destruct (PyStr.contains job_view_marker u); [| by left].
  destruct (1 <? length (PyStr.split job_view_marker u))%nat; [| by left].
  right. eexists. split; [| reflexivity].
  unfold PyStr.split. rewrite !split_char_hd. simpl. split.
  - apply before_keeps_absent, before_absent.
  - apply before_absent.
Qed.

Lemma normalize_stable (u : string) :
  normalize_linkedin_job_url (normalize_linkedin_job_url u)
  = normalize_linkedin_job_url u.
Proof.
  destruct (normalize_shape u) as [E | (j & Hj & E)].
  - by rewrite E.
  - rewrite E. by apply normalize_canonical.
Qed.

(** C6. Identity normalization is idempotent: normalizing a link that has
    already been normalized gives it back unchanged, for every input string,
    with or without query parameters or trailing path segments. *)
Theorem normalize_idempotent (u : string) :
  normalize_linkedin_job_url (normalize_linkedin_job_url u)
  = normalize_linkedin_job_url u.
Proof.
  destruct (normalize_shape u) as [E | (j & Hj & E)].
  - by rewrite E.
  - rewrite E. by apply normalize_canonical.
Qed.

(** ** Running the effects *)

Lemma rows_written_app (t1 t2 : list event) :
  rows_written (t1 ++ t2) = rows_written t1 ++ rows_written t2.
Proof.
  induction t1 as [|e t1 IH]; [done |].
  destruct e; simpl; by rewrite ?IH.
Qed.

Lemma rows_written_rows (rows : list row) : rows_written (map WriteRow rows) = rows.
Proof. induction rows as [|r rows IH]; simpl; [done | by rewrite IH]. Qed.

Lemma rows_written_batch sid rows total : rows_written (batch sid rows total) = rows.
Proof.
  unfold batch. simpl. rewrite rows_written_app, rows_written_rows. simpl.
  apply app_nil_r.
Qed.

Lemma save_card_run (c : job_card) (n : Z) (links : gset string) :
  save_card c n links =
    if PyStr.truthy (card_key c) && negb (bool_decide (card_key c ∈ links))
    then ((n + 1)%Z, {[card_key c]} ∪ links, [WriteRow (card_row c)])
    else (n, links, []).
Proof.
  unfold save_card, bind, is_seen, emit, add_link, ret. fold (card_key c).
  by destruct (PyStr.truthy (card_key c) && negb (bool_decide (card_key c ∈ links))).
Qed.

Lemma save_cards_run (job_cards : list job_card) (n : Z) (links : gset string) :
  save_cards job_cards n links =
    let rows := new_rows job_cards links in
    ((n + Z.of_nat (length rows))%Z,
     list_to_set (map row_link rows) ∪ links,
     map WriteRow rows).
Proof.
  revert n links. induction job_cards as [|c rest IH]; intros n links.
  - cbn. unfold ret. f_equal. f_equal; [lia | set_solver].
  - cbn [save_cards new_rows]. unfold bind. rewrite save_card_run.
    destruct (PyStr.truthy (card_key c) && negb (bool_decide (card_key c ∈ links))).
    + rewrite IH. cbn. f_equal. f_equal; [lia | ].
      change (row_link (card_row c)) with (card_key c). set_solver.
    + rewrite IH. reflexivity.
Qed.

Lemma extract_run (view : page_view) (n : Z) (sid : scroll_id) (links : gset string) :
  extract_and_save_jobs view n sid links =
    let rows := new_rows (view_cards view) links in
    (((n + Z.of_nat (length rows))%Z, view_total view),
     list_to_set (map row_link rows) ∪ links,
     batch sid rows (view_total view)).
Proof.
  unfold extract_and_save_jobs, bind, emit, ret.
  destruct view as [| |job_cards]; cbn.
  - f_equal. f_equal; [f_equal; lia | set_solver].
  - f_equal. f_equal; [f_equal; lia | set_solver].
  - rewrite save_cards_run. reflexivity.
Qed.

(** ** Deduplication *)

Lemma card_row_key (c : job_card) : row_key (card_row c) = card_key c.
Proof. unfold row_key. change (row_link (card_row c)) with (card_key c).
  apply normalize_stable. Qed.

Lemma new_rows_fresh (job_cards : list job_card) (links : gset string) (r : row) :
  r ∈ new_rows job_cards links →
  (row_link r ∉ links) ∧ row_key r = row_link r ∧ row_link r ≠ "".
Proof.
  revert links. induction job_cards as [|c rest IH]; intros links; cbn.
  - by intros ?%elem_of_nil.
  - destruct (PyStr.truthy (card_key c)) eqn:Ht; cbn; [| by apply IH].
    case_bool_decide as Hin; cbn; [by apply IH |].
    intros [-> | Hr]%elem_of_cons.
    + rewrite card_row_key. change (row_link (card_row c)) with (card_key c).
      split_and!; [done | done |]. intros E. by rewrite E in Ht.
    + destruct (IH _ Hr) as (Hn & Hk & He). split_and!; [set_solver | done | done].
Qed.

Lemma new_rows_NoDup (job_cards : list job_card) (links : gset string) :
  NoDup (map row_link (new_rows job_cards links)).
Proof.
  revert links. induction job_cards as [|c rest IH]; intros links; cbn.
  - constructor.
  - destruct (PyStr.truthy (card_key c) && negb (bool_decide (card_key c ∈ links)));
      [| apply IH].
    cbn. constructor; [| apply IH].
    change (row_link (card_row c)) with (card_key c).
    intros (r & Er & Hr)%list_elem_of_fmap.
    apply new_rows_fresh in Hr as (Hn & _). set_solver.
Qed.

Lemma dedups_ret {A} (a : A) : dedups (ret a).
Proof. intros links. cbn. split_and!; [constructor | by intros ? ?%elem_of_nil | set_solver]. Qed.

Lemma dedups_quiet {A} (m : M A) :
  (∀ links, (m links).1.2 = links ∧ rows_written (m links).2 = []) → dedups m.
Proof.
  intros H links. destruct (H links) as [E1 E2]. cbn. rewrite E1, E2. cbn.
  split_and!; [constructor | by intros ? ?%elem_of_nil | set_solver].
Qed.

Lemma dedups_bind {A B} (m : M A) (f : A → M B) :
  dedups m → (∀ a, dedups (f a)) → dedups (bind m f).
Proof.
  intros Hm Hf links. unfold bind.
  specialize (Hm links). destruct (m links) as [[a links1] t1]. cbn in Hm.
  specialize (Hf a links1). destruct (f a links1) as [[b links2] t2]. cbn in Hf.
  destruct Hm as (N1 & F1 & E1), Hf as (N2 & F2 & E2). cbn.
  rewrite rows_written_app, map_app. split_and!.
  - apply NoDup_app. split_and!; [done | | done].
    intros k Hk1 (r & -> & Hr)%list_elem_of_fmap.
    destruct (F2 _ Hr) as (Hn & _). apply Hn. rewrite E1.
    apply elem_of_union_l, elem_of_list_to_set, Hk1.
  - intros r [Hr | Hr]%elem_of_app.
    + by apply F1.
    + destruct (F2 _ Hr) as (Hn & Hk & He). split_and!; [| done | done].
      intros Hin. apply Hn. rewrite E1. by apply elem_of_union_r.
  - rewrite E2, E1, list_to_set_app_L. set_solver.
Qed.

Lemma dedups_emit (e : event) : (∀ r, e ≠ WriteRow r) → dedups (emit e).
Proof.
  intros He. apply dedups_quiet. intros links. cbn. split; [done |].
  destruct e; try done. by destruct (He r).
Qed.

Lemma dedups_extract view n sid : dedups (extract_and_save_jobs view n sid).
Proof.
  intros links. rewrite extract_run. cbn zeta. cbn [fst snd].
  rewrite rows_written_batch.
  split_and!; [apply new_rows_NoDup | apply new_rows_fresh | done].
Qed.

Lemma dedups_extract_steps views n : dedups (extract_steps views n).
Proof.
  revert n. induction views as [|[view sid] rest IH]; intros n; cbn.
  - apply dedups_ret.
  - apply dedups_bind; [apply dedups_extract |]. intros [c ?]. apply IH.
Qed.

Lemma keys_are_links (rows : list row) :
  (∀ r, r ∈ rows → row_key r = row_link r) → map row_key rows = map row_link rows.
Proof.
  induction rows as [|r rows IH]; intros H; cbn; [done |].
  rewrite (H r), IH; [done | | apply list_elem_of_here].
  intros r' Hr'. apply H. by apply list_elem_of_further.
Qed.

(** The same, read with identity keys. *)
Lemma dedups_keys {A} (m : M A) (links : gset string) :
  dedups m →
  let rows := rows_written (m links).2 in
  NoDup (map row_key rows)
  ∧ (∀ r, r ∈ rows → row_key r ∉ links)
  ∧ ((m links).1).2 = list_to_set (map row_key rows) ∪ links.
Proof.
  intros H. destruct (H links) as (N & F & E). cbn.
  assert (K : map row_key (rows_written (m links).2)
              = map row_link (rows_written (m links).2)).
  { apply keys_are_links. intros r Hr. by destruct (F r Hr) as (_ & ? & _). }
  rewrite K. split_and!; [done | | done].
  intros r Hr. destruct (F r Hr) as (Hn & -> & _). done.
Qed.

(** C1. Deduplication invariant: over any sequence of extraction steps, the
    rows appended to the CSV file have pairwise different normalized
    identity keys, none of which is in the seen-set the sequence started
    from, and the seen-set ends as the starting set plus exactly the appended
    keys.  For a single candidate: a row is appended only if the candidate's
    normalized link is not in the seen-set, and then the key is added to the
    set together with the append; otherwise the set is left as it was. *)
Theorem dedup_invariant (views : list (page_view * scroll_id)) (counter : Z)
    (seen : gset string) :
  (let rows := rows_written (extract_steps views counter seen).2 in
   NoDup (map row_key rows)
   ∧ (∀ r, r ∈ rows → row_key r ∉ seen)
   ∧ ((extract_steps views counter seen).1).2 = list_to_set (map row_key rows) ∪ seen)
  ∧ (∀ (c : job_card) (n : Z) (links : gset string),
       match rows_written (save_card c n links).2 with
       | [] => ((save_card c n links).1).2 = links
       | [r] => (card_key c ∉ links) ∧ row_key r = card_key c
                ∧ ((save_card c n links).1).2 = {[card_key c]} ∪ links
       | _ => False
       end).
Proof.
  split.
  - apply dedups_keys, dedups_extract_steps.
  - intros c n links. rewrite save_card_run.
    destruct (PyStr.truthy (card_key c)); cbn; [| done].
    case_bool_decide as Hin; cbn; [done |].
    split_and!; [done | apply card_row_key | done].
Qed.

(** ** The main loop *)

#[local] Arguments batch : simpl never.

Lemma attempts_app (t1 t2 : list event) : attempts (t1 ++ t2) = attempts t1 ++ attempts t2.
Proof.
  induction t1 as [|e t1 IH]; [done |].
  destruct e; simpl; by rewrite ?IH.
Qed.

Lemma attempts_batch sid rows total : attempts (batch sid rows total) = [].
Proof.
  unfold batch. cbn. rewrite attempts_app. cbn. rewrite app_nil_r.
  induction rows as [|r rows IH]; [done | exact IH].
Qed.

Lemma jobs_added_test (n : Z) (rows : list row) :
  (n <? n + Z.of_nat (length rows))%Z = negb (bool_decide (rows = [])).
Proof.
  destruct rows as [|r rows]; cbn [length].
  - rewrite Z.add_0_r, Z.ltb_irrefl. done.
  - case_bool_decide; [done |]. cbn. apply Z.ltb_lt. lia.
Qed.

(** One iteration that gets to extraction, in closed form. *)
Lemma loop_body_view (cur : Z) (clicked : bool) (view : page_view) (v : loop_vars)
    (links : gset string) :
  loop_body cur (StepView clicked view) v links =
    let rows := new_rows (view_cards view) links in
    let links' := list_to_set (map row_link rows) ∪ links in
    let scraped := (scraped_job_count v + Z.of_nat (length rows))%Z in
    let idle := negb clicked
                && (view_total view <=? last_total_jobs_on_page v)%Z
                && bool_decide (rows = []) in
    let stalled := if idle then (no_new_jobs_consecutive_scrolls v + 1)%Z else 0%Z in
    if idle && (MAX_NO_NEW_JOBS_CONSECUTIVE_SCROLLS <=? stalled)%Z
    then ((LoopVars scraped (last_total_jobs_on_page v) stalled, Some StallBreak),
          links',
          Attempt cur :: batch (ScrollNo cur) rows (view_total view))
    else ((LoopVars scraped (view_total view) stalled, None),
          links',
          Attempt cur :: batch (ScrollNo cur) rows (view_total view) ++ [SaveProgress cur]).
Proof.
  unfold loop_body, bind, emit, save_progress, emit, ret.
  rewrite extract_run. cbn zeta. cbn [fst snd].
  rewrite jobs_added_test, (Z.ltb_antisym (view_total view)).
  destruct clicked, (view_total view <=? last_total_jobs_on_page v)%Z,
    (bool_decide (new_rows (view_cards view) links = [])); cbn;
    rewrite ?app_nil_r; try reflexivity.
  destruct (MAX_NO_NEW_JOBS_CONSECUTIVE_SCROLLS <=? no_new_jobs_consecutive_scrolls v + 1)%Z;
    cbn; rewrite ?app_nil_r; reflexivity.
Qed.

Lemma loop_body_fault (cur : Z) (v : loop_vars) (links : gset string) :
  loop_body cur StepFault v links = ((v, Some StepException), links, [Attempt cur]).
Proof. reflexivity. Qed.

(** What every iteration does, whatever it meets. *)
Lemma loop_body_cases (cur : Z) (obs : step_obs) (v : loop_vars) (links : gset string) :
  let r := loop_body cur obs v links in
  (∃ v', r = ((v', Some StepException), links, [Attempt cur]))
  ∨ (∃ v' rows total,
       r = ((v', Some StallBreak), list_to_set (map row_link rows) ∪ links,
            Attempt cur :: batch (ScrollNo cur) rows total))
  ∨ (∃ v' rows total,
       r = ((v', None), list_to_set (map row_link rows) ∪ links,
            Attempt cur :: batch (ScrollNo cur) rows total ++ [SaveProgress cur])).
Proof.
  destruct obs as [|clicked view]; cbn zeta.
  - left. by eexists.
  - rewrite loop_body_view. cbn zeta.
    match goal with |- context [if ?b then _ else _] => destruct b end.
    + right; left. by eexists _, _, _.
    + right; right. by eexists _, _, _.
Qed.

(** Case analysis on what an iteration does, rewriting it in the goal. *)
Tactic Notation "loop_body_split" constr(cur) constr(obs) constr(v) constr(links)
    "as" ident(v') ident(rows) ident(total) :=
  let E := fresh "E" in
  destruct (loop_body_cases cur obs v links)
    as [(v' & E) | [(v' & rows & total & E) | (v' & rows & total & E)]];
  cbn zeta in E; rewrite E; clear E.

Lemma scroll_loop_S feed remaining cur i v links :
  scroll_loop feed (S remaining) cur i v links =
    let '(v', leaving, links1, t1) := loop_body cur (feed i) v links in
    match leaving with
    | Some exit => ((v', exit), links1, t1 ++ [])
    | None =>
        let '(res, links2, t2) := scroll_loop feed remaining (cur + 1)%Z (S i) v' links1 in
        (res, links2, t1 ++ t2)
    end.
Proof.
  cbn [scroll_loop]. unfold bind.
  destruct (loop_body cur (feed i) v links) as [[[v' leaving] links1] t1].
  destruct leaving; reflexivity.
Qed.

Lemma Zseq_length lo n : length (Zseq lo n) = n.
Proof. revert lo. induction n as [|n IH]; intros lo; cbn; [done | by rewrite IH]. Qed.

(** The iterations are numbered consecutively from the start of the range,
    there are no more of them than the range has elements, and the range is
    used up exactly when the loop is not left early. *)
Lemma scroll_loop_attempts feed remaining cur i v links :
  let r := scroll_loop feed remaining cur i v links in
  (∃ n, (n ≤ remaining)%nat ∧ attempts r.2 = Zseq cur n)
  ∧ (r.1.1.2 = RangeExhausted → attempts r.2 = Zseq cur remaining).
Proof.
  revert cur i v links. induction remaining as [|remaining IH]; intros cur i v links.
  - cbn. split; [by exists 0%nat | done].
  - cbn zeta. rewrite scroll_loop_S.
    loop_body_split cur (feed i) v links as v' rows total.
    + cbn. split; [| done]. exists 1%nat. split; [lia | done].
    + cbn. rewrite app_nil_r, attempts_batch. split; [| done].
      exists 1%nat. split; [lia | done].
    + specialize (IH (cur + 1)%Z (S i) v' (list_to_set (map row_link rows) ∪ links)).
      cbn zeta in IH.
      destruct (scroll_loop feed remaining (cur + 1) (S i) v'
                  (list_to_set (map row_link rows) ∪ links)) as [[[vf ex] lf] tf].
      cbn in IH |- *. destruct IH as ((n & Hn & En) & Hx).
      rewrite !attempts_app, attempts_batch. cbn. split.
      * exists (S n). split; [lia | by rewrite En].
      * intros ->. by rewrite Hx.
Qed.





Lemma loop_body_rows cur clicked view v links :
  rows_written (loop_body cur (StepView clicked view) v links).2
  = new_rows (view_cards view) links.
Proof.
  rewrite loop_body_view. cbn zeta.
  match goal with |- context [if ?b then _ else _] => destruct b end; cbn;
    rewrite ?rows_written_app, rows_written_batch; cbn; by rewrite ?app_nil_r.
Qed.




(** ** The whole run *)

(** The [try] block in closed form. *)
Lemma scrape_try_run (f : csv_file) (s : session) (start max : Z) (links : gset string) :
  scrape_try f s start max links =
    let hdr := if csv_is_empty f then [WriteHeader] else [] in
    if negb (page_loads s) then ((0%Z, None), links, hdr)
    else
      let rows := new_rows (view_cards (first_view s)) links in
      let links1 := list_to_set (map row_link rows) ∪ links in
      let total := view_total (first_view s) in
      let scraped :=
        if (start =? 1)%Z then Z.of_nat (length rows) else Z.of_nat (size links) in
      let first :=
        if (start =? 1)%Z
        then batch (ScrollNo 0) rows total ++ [SaveProgress 1]
        else batch ResumeCheck rows total in
      let r := scroll_loop (feed s) (range_len start (max + 1)) start 0
                 (LoopVars scraped total 0) links1 in
      ((scraped_job_count r.1.1.1, Some r.1.1.2), r.1.2, hdr ++ first ++ r.2).
Proof.
  unfold scrape_try. cbn zeta.
  unfold bind at 1.
  assert (Hh : (if csv_is_empty f then emit WriteHeader else ret ()) links
               = ((), links, if csv_is_empty f then [WriteHeader] else [])).
  { by destruct (csv_is_empty f). }
  rewrite Hh. clear Hh.
  destruct (page_loads s); cbn [negb].
  2:{ unfold ret. by rewrite app_nil_r. }
  unfold bind at 1.
  destruct (start =? 1)%Z.
  - unfold bind at 1. rewrite extract_run. cbn zeta.
    unfold bind at 1. unfold save_progress, emit, ret at 1. cbn [fst snd].
    unfold bind at 1.
    destruct (scroll_loop _ _ _ _ _ _) as [[[v ex] l2] t2]. unfold ret. cbn.
    by rewrite app_nil_r, <- !app_assoc.
  - unfold bind at 1. unfold len_existing_links at 1.
    unfold bind at 1. rewrite extract_run. cbn zeta. unfold ret at 1.
    unfold bind at 1.
    destruct (scroll_loop _ _ _ _ _ _) as [[[v ex] l2] t2]. unfold ret. cbn.
    by rewrite !app_nil_r.
Qed.

Lemma scrape_run (f : csv_file) (progress : progress_file) (s : session) (max : Z) :
  scrape_linkedin_jobs f progress s max =
    if negb (driver_starts s) then Returns (Run 0 None ∅ [])
    else
      let r := scrape_try f s (load_progress progress + 1) max (existing_of f) in
      Returns (Run r.1.1.1 r.1.1.2 r.1.2 r.2).
Proof.
  unfold scrape_linkedin_jobs. destruct (negb (driver_starts s)); [done |].
  destruct f as [|lines]; cbn [get_existing_job_links existing_of].
  - by destruct (scrape_try _ _ _ _ _) as [[[a b] l] t].
  - destruct (read_existing_links lines) as [existing raised]. cbn [fst].
    by destruct (scrape_try _ _ _ _ _) as [[[a b] l] t].
Qed.

(** ** Write-ahead order *)

Lemma saves_app (t1 t2 : list event) : saves (t1 ++ t2) = saves t1 ++ saves t2.
Proof.
  induction t1 as [|e t1 IH]; [done |].
  destruct e; simpl; by rewrite ?IH.
Qed.

Lemma saves_batch sid rows total : saves (batch sid rows total) = [].
Proof.
  unfold batch. cbn. rewrite saves_app. cbn. rewrite app_nil_r.
  induction rows as [|r rows IH]; [done | exact IH].
Qed.









(** ** Deduplication across the run *)

Lemma dedups_loop_body cur obs v : dedups (loop_body cur obs v).
Proof.
  unfold loop_body. apply dedups_bind; [by apply dedups_emit |]. intros _.
  destruct obs as [|clicked view]; [apply dedups_ret |].
  apply dedups_bind; [apply dedups_extract |]. intros [scraped total].
  destruct (_ || _ || clicked).
  - apply dedups_bind; [by apply dedups_emit | intros; apply dedups_ret].
  - destruct (_ <=? _)%Z; [apply dedups_ret |].
    apply dedups_bind; [by apply dedups_emit | intros; apply dedups_ret].
Qed.

Lemma dedups_scroll_loop feed remaining cur i v :
  dedups (scroll_loop feed remaining cur i v).
Proof.
  revert cur i v. induction remaining as [|remaining IH]; intros cur i v; cbn.
  - apply dedups_ret.
  - apply dedups_bind; [apply dedups_loop_body |]. intros [v' [exit|]].
    + apply dedups_ret.
    + apply IH.
Qed.

Lemma dedups_scrape_try f s start max : dedups (scrape_try f s start max).
Proof.
  unfold scrape_try. apply dedups_bind.
  { destruct (csv_is_empty f); [by apply dedups_emit | apply dedups_ret]. }
  intros _. destruct (negb (page_loads s)); [apply dedups_ret |].
  apply dedups_bind.
  - destruct (start =? 1)%Z.
    + apply dedups_bind; [apply dedups_extract |]. intros [scraped total].
      apply dedups_bind; [by apply dedups_emit | intros; apply dedups_ret].
    + apply dedups_bind; [by apply dedups_quiet |]. intros scraped.
      apply dedups_bind; [apply dedups_extract |]. intros [? total]. apply dedups_ret.
  - intros [scraped total]. apply dedups_bind; [apply dedups_scroll_loop |].
    intros [v exit]. apply dedups_ret.
Qed.

(** ** Reading the store back *)

Lemma collect_links_records (records : list row) (acc : gset string) :
  collect_links 3 (map Line records) acc = (store_keys records ∪ acc, None).
Proof.
  revert acc. induction records as [|r records IH]; intros acc; cbn [map collect_links].
  - f_equal. unfold store_keys. cbn. set_solver.
  - unfold store_keys. rewrite filter_cons.
    destruct (Nat.ltb_spec 3 (length r)) as [Hl | Hl].
    + rewrite IH, decide_True by done. f_equal. cbn.
      fold (row_link r). fold (row_key r). unfold store_keys. set_solver.
    + rewrite IH, decide_False by lia. done.
Qed.

Lemma existing_of_standard (records : list row) :
  existing_of (CsvFile (Line headers :: map Line records)) = store_keys records.
Proof.
  cbn. rewrite collect_links_records. cbn. set_solver.
Qed.


Lemma linked_row_long (r : row) : row_link r ≠ "" → (3 < length r)%nat.
Proof.
  intros H. destruct (decide (3 < length r)%nat) as [|Hn]; [done |].
  exfalso. apply H. unfold row_link. apply nth_overflow. lia.
Qed.


(** ** Resuming *)


Lemma attempts_scrape_try f s start max links :
  attempts (scrape_try f s start max links).2 =
    if negb (page_loads s) then []
    else
      let rows := new_rows (view_cards (first_view s)) links in
      attempts (scroll_loop (feed s) (range_len start (max + 1)) start 0
                  (LoopVars
                     (if (start =? 1)%Z then Z.of_nat (length rows)
                      else Z.of_nat (size links))
                     (view_total (first_view s)) 0)
                  (list_to_set (map row_link rows) ∪ links)).2.
Proof.
  rewrite scrape_try_run. cbn zeta.
  destruct (negb (page_loads s)); cbn [snd].
  - by destruct (csv_is_empty f).
  - rewrite !attempts_app.
    replace (attempts (if csv_is_empty f then [WriteHeader] else [])) with (@nil Z)
      by by destruct (csv_is_empty f).
    destruct (start =? 1)%Z; by rewrite ?attempts_app, attempts_batch.
Qed.


(** ** What the store holds after a run *)

Lemma get_existing_returns (f : csv_file) :
  get_existing_job_links f = Returns (existing_of f).
Proof.
  destruct f as [|lines]; cbn; [done |]. by destruct (read_existing_links lines).
Qed.

Lemma lines_written_app (t1 t2 : list event) :
  lines_written (t1 ++ t2) = lines_written t1 ++ lines_written t2.
Proof.
  induction t1 as [|e t1 IH]; [done |].
  destruct e; simpl; by rewrite ?IH.
Qed.

Lemma lines_written_batch sid rows total :
  lines_written (batch sid rows total) = map Line rows.
Proof.
  unfold batch. cbn. rewrite lines_written_app. cbn. rewrite app_nil_r.
  induction rows as [|r rows IH]; cbn; [done | by rewrite IH].
Qed.

(** The loop writes rows only, never the header. *)
Lemma lines_written_scroll_loop feed remaining cur i v links :
  lines_written (scroll_loop feed remaining cur i v links).2
  = map Line (rows_written (scroll_loop feed remaining cur i v links).2).
Proof.
  revert cur i v links. induction remaining as [|remaining IH]; intros cur i v links.
  - done.
  - rewrite scroll_loop_S.
    loop_body_split cur (feed i) v links as v' rows total.
    + done.
    + cbn. by rewrite app_nil_r, lines_written_batch, rows_written_batch.
    + specialize (IH (cur + 1)%Z (S i) v' (list_to_set (map row_link rows) ∪ links)).
      destruct (scroll_loop _ _ _ _ _ _) as [[res l2] t2]. cbn in IH |- *.
      rewrite !lines_written_app, !rows_written_app, lines_written_batch,
        rows_written_batch, IH, !map_app. done.
Qed.

Lemma lines_written_scrape_try f s start max links :
  lines_written (scrape_try f s start max links).2
  = (if csv_is_empty f then [Line headers] else [])
    ++ map Line (rows_written (scrape_try f s start max links).2).
Proof.
  rewrite scrape_try_run. cbn zeta.
  destruct (negb (page_loads s)); cbn [snd].
  - by destruct (csv_is_empty f).
  - rewrite !lines_written_app, !rows_written_app, lines_written_scroll_loop.
    assert (rows_written (if csv_is_empty f then [WriteHeader] else []) = []) as ->
      by by destruct (csv_is_empty f).
    assert (lines_written (if csv_is_empty f then [WriteHeader] else [])
            = if csv_is_empty f then [Line headers] else []) as ->
      by by destruct (csv_is_empty f).
    cbn [app]. f_equal. rewrite map_app. f_equal.
    destruct (start =? 1)%Z;
      rewrite ?lines_written_app, ?rows_written_app, lines_written_batch,
        rows_written_batch; cbn; by rewrite ?app_nil_r.
Qed.

Lemma store_keys_app (r1 r2 : list row) :
  store_keys (r1 ++ r2) = store_keys r1 ∪ store_keys r2.
Proof.
  unfold store_keys. by rewrite filter_app, map_app, list_to_set_app_L.
Qed.

Lemma store_keys_written (rows : list row) :
  (∀ r, r ∈ rows → row_key r = row_link r ∧ row_link r ≠ "") →
  store_keys rows = list_to_set (map row_link rows).
Proof.
  unfold store_keys. induction rows as [|r rows IH]; intros H; [done |].
  destruct (H r) as [Hk He]; [apply list_elem_of_here |].
  rewrite filter_cons, decide_True by by apply linked_row_long.
  cbn [map]. rewrite !list_to_set_cons, Hk. f_equal. apply IH.
  intros r' Hr'. apply H. by apply list_elem_of_further.
Qed.

(** Reading back a standard store after a run that did [t]. *)
Lemma reload_standard (f : csv_file) (t : list event) :
  standard_store f →
  lines_written t
  = (if csv_is_empty f then [Line headers] else []) ++ map Line (rows_written t) →
  (∀ r, r ∈ rows_written t → row_key r = row_link r ∧ row_link r ≠ "") →
  get_existing_job_links (csv_after f t)
  = Returns (list_to_set (map row_link (rows_written t)) ∪ existing_of f).
Proof.
  intros Hf Hl Hr. rewrite get_existing_returns. f_equal.
  destruct Hf as [-> | [-> | (records & ->)]]; cbn [csv_after csv_is_empty] in *.
  - rewrite Hl. cbn [app]. rewrite existing_of_standard, (store_keys_written _ Hr).
    cbn. set_solver.
  - rewrite Hl. cbn [app]. rewrite existing_of_standard, (store_keys_written _ Hr).
    cbn. set_solver.
  - rewrite Hl. cbn [app]. rewrite <- map_app.
    rewrite !existing_of_standard, store_keys_app, (store_keys_written _ Hr).
    set_solver.
Qed.

(** C10. Store-normalization invariant: every row a run writes carries its
    link in normalized form, namely the normalized link of the job card and
    not the raw href; so normalizing the Link column again changes nothing,
    and reading back a standard store after the run gives exactly the keys
    that were checked and added when the rows were appended, together with
    those the store held before, which is the seen-set the run ended with. *)
Theorem store_links_normalized (f : csv_file) (progress : progress_file)
    (s : session) (max : Z) :
  ∃ r,
    scrape_linkedin_jobs f progress s max = Returns r
    ∧ (∀ w, w ∈ rows_written (performed r) →
         normalize_linkedin_job_url (row_link w) = row_link w)
    ∧ (∀ (c : job_card) (n : Z) (links : gset string) (w : row),
         w ∈ rows_written (save_card c n links).2 →
         row_link w = normalize_linkedin_job_url (text_or_na (card_href c)))
    ∧ (standard_store f →
       get_existing_job_links (csv_after f (performed r))
       = Returns (list_to_set (map row_link (rows_written (performed r))) ∪ existing_of f))
    ∧ (driver_starts s = true →
       links_of r = list_to_set (map row_link (rows_written (performed r))) ∪ existing_of f).
Proof.
  assert (Hcard : ∀ (c : job_card) (n : Z) (links : gset string) (w : row),
             w ∈ rows_written (save_card c n links).2 →
             row_link w = normalize_linkedin_job_url (text_or_na (card_href c))).
  { intros c n links w. rewrite save_card_run.
    destruct (_ && _); cbn; [| by intros ?%elem_of_nil].
    by intros ->%list_elem_of_singleton. }
  rewrite scrape_run. destruct (driver_starts s); cbn [negb].
  - cbn zeta. eexists. split; [done |]. cbn [performed links_of].
    destruct (dedups_scrape_try f s (load_progress progress + 1) max (existing_of f))
      as (_ & F & E).
    split_and!; [| done | | done].
    + intros w Hw. by destruct (F w Hw) as (_ & Hk & _).
    + intros Hf. apply reload_standard; [done | apply lines_written_scrape_try |].
      intros r Hr. by destruct (F r Hr) as (_ & Hk & He).
  - eexists. split; [done |]. cbn [performed].
    split_and!; [by intros ? ?%elem_of_nil | done | | done].
    intros Hf. rewrite get_existing_returns. f_equal. cbn.
    destruct Hf as [-> | [-> | (records & ->)]]; cbn [csv_after];
      rewrite ?app_nil_r; set_solver.
Qed.

(** ** The checkpoint at a stall break *)

(** A loop left by the stall break ends on the extraction of its last
    iteration: no save follows it. *)
Lemma stall_break_unsaved feed remaining cur i v links :
  (scroll_loop feed remaining cur i v links).1.1.2 = StallBreak →
  ∃ pre n rows total,
    (scroll_loop feed remaining cur i v links).2
    = pre ++ Attempt n :: batch (ScrollNo n) rows total.
Proof.
  revert cur i v links. induction remaining as [|remaining IH]; intros cur i v links.
  - done.
  - rewrite scroll_loop_S.
    loop_body_split cur (feed i) v links as v' rows total.
    + done.
    + intros _. exists [], cur, rows, total. cbn. by rewrite app_nil_r.
    + specialize (IH (cur + 1)%Z (S i) v' (list_to_set (map row_link rows) ∪ links)).
      destruct (scroll_loop _ _ _ _ _ _) as [[[vf ex] l2] t2]. cbn in IH |- *.
      intros Hx. destruct (IH Hx) as (pre & n & rows' & total' & ->).
      exists (Attempt cur :: batch (ScrollNo cur) rows total ++ [SaveProgress cur] ++ pre),
        n, rows', total'.
      cbn. by rewrite <- !app_assoc.
Qed.

(** C3. On a fresh start against a page that stays empty, the loop is left
    by the stall break at iteration 5, whose extraction returned normally,
    and the progress file is left holding 4: iteration 5 was never saved.
    Likewise, with ten jobs at first, two more at iteration 1 and no change
    after that, twelve rows are written, the loop is left by the stall break
    at iteration 6, and the progress file is left holding 5. *)
Theorem stall_break_skips_checkpoint :
  (∃ r,
     scrape_linkedin_jobs CsvMissing ProgressMissing still_session 1000 = Returns r
     ∧ exit_of r = Some StallBreak
     ∧ attempts (performed r) = [1; 2; 3; 4; 5]%Z
     ∧ saves (performed r) = [1; 1; 2; 3; 4]%Z
     ∧ progress_after ProgressMissing (performed r) = ProgressInt 4
     ∧ ∃ pre, performed r = pre ++ Attempt 5 :: batch (ScrollNo 5) [] 0)
  ∧ (∃ r,
     scrape_linkedin_jobs CsvMissing ProgressMissing growing_session 1000 = Returns r
     ∧ exit_of r = Some StallBreak
     ∧ length (rows_written (performed r)) = 12%nat
     ∧ attempts (performed r) = [1; 2; 3; 4; 5; 6]%Z
     ∧ saves (performed r) = [1; 1; 2; 3; 4; 5]%Z
     ∧ progress_after ProgressMissing (performed r) = ProgressInt 5).
Proof.
  split.
  - eexists. split; [vm_compute; reflexivity |].
    cbn [exit_of performed]. split_and!; try reflexivity.
    eexists (_ :: _ :: _ :: _ :: _ :: _ :: _ :: _ :: _ :: _ :: _ :: _ :: _ :: _ :: _
               :: _ :: _ :: _ :: _ :: _ :: []).
    reflexivity.
  - eexists. split; [vm_compute; reflexivity |].
    cbn [exit_of performed]. split_and!; reflexivity.
Qed.

(** ** The returned count *)




(** C5. A resumed run over a store of two records, against a page that
    shows nothing, writes no row and yet returns 2; and when the resume-check
    extraction does write a new row, that row is not counted either: the run
    still returns 2. *)
Theorem resumed_return_counts_existing :
  (∃ r,
     scrape_linkedin_jobs (CsvFile (Line headers :: map Line two_records))
       (ProgressInt 3) still_session 1000 = Returns r
     ∧ returned r = 2%Z
     ∧ rows_written (performed r) = []
     ∧ attempts (performed r) = [4; 5; 6; 7; 8]%Z)
  ∧ (∃ r,
     scrape_linkedin_jobs (CsvFile (Line headers :: map Line two_records))
       (ProgressInt 3)
       (Session true true (JobCards [linkless "Data Scientist"]) still_feed) 1000
     = Returns r
     ∧ returned r = 2%Z
     ∧ rows_written (performed r) = [["Data Scientist"; "N/A"; "N/A"; "N/A"; "N/A"]]).
Proof.
  split; (eexists; split; [vm_compute; reflexivity |]);
    cbn [returned performed]; split_and!; reflexivity.
Qed.

(** ** Candidates without a link *)



Example empty_href_skipped :
  save_card (empty_href "Data Analyst") 0 ∅ = (0%Z, ∅, []).
Proof. reflexivity. Qed.


(** ** Loading the seen-set *)

Lemma collect_links_fault (i : nat) (records : list row) (rest : list csv_line)
    (acc : gset string) :
  collect_links i (map Line records ++ Unparsable :: rest) acc
  = ((collect_links i (map Line records) acc).1, Some CsvError).
Proof.
  revert acc. induction records as [|r records IH]; intros acc;
    cbn [map app collect_links]; [done |].
  destruct (i <? length r)%nat; apply IH.
Qed.

(** A store whose third line cannot be parsed: the call returns, with the
    key of the record read before the fault. *)
Lemma unparsable_store_returns :
  get_existing_job_links
    (CsvFile (Line headers :: Line ["Data Analyst"; "Acme"; "Riyadh";
                                    "https://www.linkedin.com/jobs/view/1/?refId=7";
                                    "2024-05-01"]
              :: Unparsable :: []))
  = Returns {["https://www.linkedin.com/jobs/view/1/"]}.
Proof. vm_compute. reflexivity. Qed.

(** C9 (amended). Loading the seen identities never fails.  When the file
    does not exist it returns the empty set.  When the file exists but cannot
    be parsed, the error is caught and the call returns the keys collected
    before the fault: the empty set if the first line is unparsable, and
    otherwise what the lines before the unparsable one give. *)
Theorem existing_links_load_total :
  (∀ f, ∃ links, get_existing_job_links f = Returns links)
  ∧ get_existing_job_links CsvMissing = Returns ∅
  ∧ (∀ rest, get_existing_job_links (CsvFile (Unparsable :: rest)) = Returns ∅)
  ∧ (∀ header records rest,
       get_existing_job_links
         (CsvFile (Line header :: map Line records ++ Unparsable :: rest))
       = get_existing_job_links (CsvFile (Line header :: map Line records))).
Proof.
  split_and!.
  - intros f. exists (existing_of f). apply get_existing_returns.
  - reflexivity.
  - reflexivity.
  - intros header records rest. cbn.
    destruct header as [|h header]; [done |].
    destruct (index_of "Link" (h :: header)) as [i|]; [| done].
    rewrite collect_links_fault. by destruct (collect_links i (map Line records) ∅).
Qed.

(** ** Links to the same job *)

Section LinkShapes.

Local Abbreviation slash := "/"%char.
Local Abbreviation qmark := "?"%char.

Lemma has_char_app c (s t : string) :
  PyStr.has_char c (s +:+ t) = PyStr.has_char c s || PyStr.has_char c t.
Proof. induction s as [|a s IH]; simpl; [done | by rewrite IH, orb_assoc]. Qed.

Lemma str_length_app (s t : string) :
  String.length (s +:+ t) = (String.length s + String.length t)%nat.
Proof. induction s as [|a s IH]; simpl; [done | by rewrite IH]. Qed.

Lemma startswith_app_long (m x y : string) :
  (String.length m ≤ String.length x)%nat →
  PyStr.startswith m (x +:+ y) = PyStr.startswith m x.
Proof.
  revert x. induction m as [|a m IH]; intros x Hl; [by destruct x |].
  destruct x as [|b x]; simpl in Hl; [lia |].
  simpl. rewrite IH by lia. done.
Qed.

Lemma before_app_absent c (s t : string) :
  PyStr.has_char c s = false → PyStr.before c (s +:+ t) = s +:+ PyStr.before c t.
Proof.
  induction s as [|a s IH]; simpl; [done |].
  intros [Ha Hs]%orb_false_elim. rewrite Ha. by rewrite IH.
Qed.

Lemma before_app_cut c (s t : string) :
  PyStr.has_char c s = false → PyStr.before c (s +:+ String c t) = s.
Proof.
  intros H. rewrite before_app_absent by done. simpl.
  rewrite Ascii.eqb_refl. apply str_app_nil_r.
Qed.

Lemma split_from_nonempty sep skip cur s :
  (1 ≤ length (PyStr.split_from sep skip cur s))%nat.
Proof.
  revert skip cur. induction s as [|c s IH]; intros skip cur; cbn [PyStr.split_from].
  - cbn. lia.
  - destruct skip; [| apply IH].
    destruct (PyStr.startswith sep (String c s)); [cbn; lia | apply IH].
Qed.

Lemma split_from_hd_prefix sep skip cur s :
  ∃ y, hd "" (PyStr.split_from sep skip cur s) = cur +:+ y.
Proof.
  revert skip cur. induction s as [|c s IH]; intros skip cur; cbn [PyStr.split_from].
  - exists "". cbn. by rewrite str_app_nil_r.
  - destruct skip; [| apply IH].
    destruct (PyStr.startswith sep (String c s)).
    + exists "". cbn. by rewrite str_app_nil_r.
    + destruct (IH 0%nat (cur +:+ String c "")) as [y Hy].
      exists (String c y). by rewrite Hy, str_app_assoc.
Qed.

(** Where the text has an occurrence of the marker, the split has a second
    piece. *)
Lemma split_finds (cur s : string) :
  PyStr.contains job_view_marker s = true →
  (1 < length (PyStr.split_from job_view_marker 0 cur s))%nat.
Proof.
  revert cur. induction s as [|c s IH]; intros cur; [done |].
  cbn [PyStr.contains PyStr.split_from].
  destruct (PyStr.startswith job_view_marker (String c s)).
  - intros _. cbn [length].
    pose proof (split_from_nonempty job_view_marker
                  (String.length job_view_marker - 1) "" s). lia.
  - cbn [orb]. apply IH.
Qed.

(** The marker cannot start inside a job id that is followed by an
    admissible end. *)
Lemma marker_not_at_id (j tail : string) :
  PyStr.has_char slash j = false → id_ends tail = true →
  PyStr.startswith job_view_marker (j +:+ tail) = false.
Proof.
  intros Hj Ht. destruct (PyStr.startswith job_view_marker (j +:+ tail)) eqn:E; [| done].
  exfalso. apply startswith_split in E as [r E].
  assert (Hb : PyStr.before slash (j +:+ tail) = "linkedin.com").
  { rewrite E. reflexivity. }
  destruct tail as [|c rest].
  - apply (f_equal (PyStr.has_char slash)) in E.
    rewrite has_char_app, Hj in E. cbn in E. done.
  - cbn [id_ends] in Ht. apply orb_prop in Ht as [Hc | Hc].
    + apply Ascii.eqb_eq in Hc as ->.
      rewrite before_app_absent in Hb by done.
      apply (f_equal (PyStr.has_char qmark)) in Hb.
      rewrite has_char_app in Hb. cbn in Hb. by rewrite orb_true_r in Hb.
    + apply andb_prop in Hc as [Hc Hr]. apply Ascii.eqb_eq in Hc as ->.
      rewrite before_app_cut in Hb by done. subst j.
      cbn in E. injection E as E. subst rest. cbn in Hr. done.
Qed.

(** The first piece of the split of a job id with an admissible end holds
    the whole id and goes on as the end does. *)
Lemma split_marker_id (cur j tail : string) :
  PyStr.has_char slash j = false → id_ends tail = true →
  ∃ y, hd "" (PyStr.split_from job_view_marker 0 cur (j +:+ tail)) = cur +:+ j +:+ y
       ∧ match tail with
         | EmptyString => y = ""
         | String c _ => ∃ y', y = String c y'
         end.
Proof.
  intros Hj Ht. revert cur. induction j as [|a j IH]; intros cur.
  - cbn [String.append]. destruct tail as [|c rest].
    + exists "". split; [| done]. cbn. by rewrite str_app_nil_r.
    + cbn [PyStr.split_from].
      pose proof (marker_not_at_id "" (String c rest) eq_refl Ht) as Hn.
      cbn [String.append] in Hn. rewrite Hn.
      destruct (split_from_hd_prefix job_view_marker 0 (cur +:+ String c "") rest)
        as [y Hy].
      exists (String c y). split; [| by exists y].
      by rewrite Hy, str_app_assoc.
  - pose proof Hj as Hj'. cbn in Hj'. apply orb_false_elim in Hj' as [Ha Hj'].
    change (String a j +:+ tail) with (String a (j +:+ tail)).
    cbn [PyStr.split_from].
    change (String a (j +:+ tail)) with (String a j +:+ tail).
    rewrite (marker_not_at_id _ _ Hj Ht).
    destruct (IH Hj' (cur +:+ String a "")) as (y & Hy & Hs).
    exists y. split; [| done].
    change (String a j +:+ tail) with (String a (j +:+ tail)).
    by rewrite Hy, str_app_assoc.
Qed.

(** Splitting at the marker a text whose first occurrence of it is known. *)
Lemma split_marker_prefix (cur p t : string) :
  PyStr.contains job_view_marker (p +:+ job_view_marker_init) = false →
  PyStr.split_from job_view_marker 0 cur (p +:+ job_view_marker +:+ t)
  = (cur +:+ p) :: PyStr.split_from job_view_marker 0 "" t.
Proof.
  revert cur. induction p as [|c p IH]; intros cur Hp.
  - cbn [String.append]. rewrite str_app_nil_r. reflexivity.
  - change (String c p +:+ job_view_marker_init)
      with (String c (p +:+ job_view_marker_init)) in Hp.
    cbn [PyStr.contains] in Hp. apply orb_false_elim in Hp as [Hs Hp].
    change (String c p +:+ job_view_marker +:+ t)
      with (String c (p +:+ job_view_marker +:+ t)).
    cbn [PyStr.split_from].
    assert (Hn : PyStr.startswith job_view_marker
                   (String c (p +:+ job_view_marker +:+ t)) = false).
    { change job_view_marker with (job_view_marker_init +:+ "/") at 2.
      rewrite str_app_assoc, <- (str_app_assoc p).
      change (String c ((p +:+ job_view_marker_init) +:+ "/" +:+ t))
        with (String c (p +:+ job_view_marker_init) +:+ ("/" +:+ t)).
      rewrite startswith_app_long; [exact Hs |].
      cbn [String.length]. rewrite str_length_app. cbn. lia. }
    rewrite Hn, (IH _ Hp), str_app_assoc. reflexivity.
Qed.

End LinkShapes.

Lemma nth_1_cons {A} (x d : A) (l : list A) : nth 1 (x :: l) d = hd d l.
Proof. by destruct l. Qed.

(** X1. Links to the same job get the same key: whatever precedes the
    marker (as long as the marker does not already start there), and whether
    the job id is followed by nothing, by a query, or by a slash and further
    text other than ["jobs/view/..."], the normalized link is the canonical
    link of the job id. *)
Theorem normalize_same_job (p j tail : string) :
  PyStr.contains job_view_marker (p +:+ job_view_marker_init) = false →
  clean_id j →
  id_ends tail = true →
  normalize_linkedin_job_url (p +:+ job_view_marker +:+ j +:+ tail)
  = job_view_base +:+ j +:+ "/".
Proof.
  intros Hp [Hs Hq] Ht. unfold normalize_linkedin_job_url.
  rewrite contains_app. cbv zeta. unfold PyStr.split.
  rewrite split_marker_prefix by done.
  pose proof (split_from_nonempty job_view_marker 0 "" (j +:+ tail)) as Hl.
  assert ((1 <? length (("" +:+ p)
             :: PyStr.split_from job_view_marker 0 "" (j +:+ tail)))%nat = true) as ->.
  { apply Nat.ltb_lt. cbn [length]. lia. }
  rewrite nth_1_cons.
  destruct (split_marker_id "" j tail Hs Ht) as (y & -> & Hy).
  cbn [String.append]. rewrite !split_char_hd.
  cbn [String.append].
  assert (PyStr.before "?" (PyStr.before "/" (j +:+ y)) = j) as ->; [| done].
  destruct tail as [|c rest].
  - subst y. rewrite str_app_nil_r.
    by rewrite (before_whole _ _ Hs), (before_whole _ _ Hq).
  - destruct Hy as [y' ->]. cbn [id_ends] in Ht.
    apply orb_prop in Ht as [Hc | Hc].
    + apply Ascii.eqb_eq in Hc as ->.
      rewrite (before_app_absent _ _ _ Hs). cbn [PyStr.before Ascii.eqb].
      cbn. by rewrite (before_app_cut _ _ _ Hq).
    + apply andb_prop in Hc as [Hc _]. apply Ascii.eqb_eq in Hc as ->.
      by rewrite (before_app_cut _ _ _ Hs), (before_whole _ _ Hq).
Qed.

Lemma normalize_same_job_witness :
  normalize_linkedin_job_url
    "https://sa.linkedin.com/jobs/view/data-analyst-at-acme-42/apply?position=1"
  = "https://www.linkedin.com/jobs/view/data-analyst-at-acme-42/".
Proof.
  exact (normalize_same_job "https://sa." "data-analyst-at-acme-42" "/apply?position=1"
           eq_refl (conj eq_refl eq_refl) eq_refl).
Defined.

(** What the normalizer makes of a link that holds the marker. *)
Lemma normalize_job_link (u : string) :
  PyStr.contains job_view_marker u = true →
  ∃ j, clean_id j ∧ normalize_linkedin_job_url u = job_view_base +:+ j +:+ "/".
Proof.
  intros Hc. unfold normalize_linkedin_job_url. rewrite Hc.
  pose proof (split_finds "" u Hc) as Hl. apply Nat.ltb_lt in Hl.
  unfold PyStr.split at 1. rewrite Hl.
  eexists. split; [| reflexivity].
  unfold PyStr.split. rewrite !split_char_hd. simpl. split.
  - apply before_keeps_absent, before_absent.
  - apply before_absent.
Qed.

(** X2. The normalizer leaves a link without the marker as it is, and turns
    any link with the marker into the canonical link of a job id that has
    neither slash nor question mark; so the links it leaves unchanged are
    exactly those without the marker and the canonical ones. *)
Theorem normalize_fixed_points (u : string) :
  ((PyStr.contains job_view_marker u = false ∧ normalize_linkedin_job_url u = u)
   ∨ (PyStr.contains job_view_marker u = true
      ∧ ∃ j, clean_id j ∧ normalize_linkedin_job_url u = job_view_base +:+ j +:+ "/"))
  ∧ (normalize_linkedin_job_url u = u
     ↔ PyStr.contains job_view_marker u = false
       ∨ ∃ j, clean_id j ∧ u = job_view_base +:+ j +:+ "/").
Proof.
  assert (Hno : PyStr.contains job_view_marker u = false →
                normalize_linkedin_job_url u = u).
  { intros H. unfold normalize_linkedin_job_url. by rewrite H. }
  split.
  - destruct (PyStr.contains job_view_marker u) eqn:Hc.
    + right. split; [done |]. by apply normalize_job_link.
    + left. split; [done |]. by apply Hno.
  - split.
    + intros Hfix. destruct (PyStr.contains job_view_marker u) eqn:Hc; [| by left].
      right. destruct (normalize_job_link u Hc) as (j & Hj & E).
      exists j. split; [done |]. by rewrite <- Hfix.
    + intros [Hc | (j & Hj & ->)]; [by apply Hno | by apply normalize_canonical].
Qed.

Lemma normalize_empty (u : string) : normalize_linkedin_job_url u = "" ↔ u = "".
Proof.
  split; [| by intros ->].
  destruct (normalize_fixed_points u) as [[(_ & E) | (_ & j & _ & E)] _];
    rewrite E; [done |].
  unfold job_view_base. cbn. done.
Qed.

(** X3. The gate of the card loop in terms of the card: a row is written,
    the key added and the counter raised exactly when the card's [href] is
    not the empty string and its key is not yet in the seen-set; otherwise
    nothing changes.  The normalized link is empty only for an empty link,
    so the "no link" branch is taken for an empty [href] alone. *)
Theorem save_card_gate (c : job_card) (n : Z) (links : gset string) :
  (∀ u, normalize_linkedin_job_url u = "" ↔ u = "")
  ∧ save_card c n links =
      if decide (card_href c ≠ Some "" ∧ card_key c ∉ links)
      then ((n + 1)%Z, {[card_key c]} ∪ links, [WriteRow (card_row c)])
      else (n, links, []).
Proof.
  split; [apply normalize_empty |].
  rewrite save_card_run.
  assert (Ht : PyStr.truthy (card_key c) = true ↔ card_href c ≠ Some "").
  { unfold card_key. split.
    - intros H E. rewrite E in H. done.
    - intros H. destruct (normalize_linkedin_job_url (text_or_na (card_href c))) eqn:E;
        [| done].
      apply (proj1 (normalize_empty _)) in E. destruct (card_href c) as [h|]; [| done].
      change (h = "") in E. by subst h. }
  destruct (decide (card_href c ≠ Some "" ∧ card_key c ∉ links)) as [[H1 H2] | Hn].
  - apply Ht in H1. by rewrite H1, bool_decide_eq_false_2.
  - destruct (PyStr.truthy (card_key c)) eqn:E; [| done].
    case_bool_decide as Hin; [done |].
    exfalso. apply Hn. split; [by apply Ht | done].
Qed.

(** ** Looking up the stored links *)

Lemma index_of_Some (x : string) (l : row) (i : nat) :
  index_of x l = Some i →
  nth i l "" = x ∧ ∀ j, (j < i)%nat → nth j l "" ≠ x.
Proof.
  revert i. induction l as [|y l IH]; intros i; cbn [index_of]; [done |].
  destruct (String.eqb_spec y x) as [-> | Hne].
  - intros [= <-]. split; [done | intros j Hj; lia].
  - destruct (index_of x l) as [i'|]; [| done]. cbn. intros [= <-].
    destruct (IH i' eq_refl) as [Hn Hf]. split; [done |].
    intros [|j] Hj; cbn; [done | apply Hf; lia].
Qed.

Lemma index_of_None (x : string) (l : row) : index_of x l = None → x ∉ l.
Proof.
  induction l as [|y l IH]; cbn [index_of]; [by intros _ ?%elem_of_nil |].
  destruct (String.eqb_spec y x) as [-> | Hne]; [done |].
  destruct (index_of x l); [done |]. intros _ [-> | H]%elem_of_cons; [done |].
  by apply IH.
Qed.

Lemma collect_links_lookup (i : nat) (records : list row) (acc : gset string) (k : string) :
  k ∈ (collect_links i (map Line records) acc).1
  ↔ k ∈ acc ∨ ∃ r, r ∈ records ∧ (i < length r)%nat
                   ∧ normalize_linkedin_job_url (nth i r "") = k.
Proof.
  revert acc. induction records as [|r records IH]; intros acc; cbn [map collect_links].
  - cbn. split; [by left |]. intros [H | (r & Hr & _)]; [done |].
    by apply elem_of_nil in Hr.
  - destruct (Nat.ltb_spec i (length r)) as [Hl | Hl]; rewrite IH; split.
    + intros [[->%elem_of_singleton | H]%elem_of_union | (r' & Hr' & H)].
      * right. exists r. split; [apply list_elem_of_here | done].
      * by left.
      * right. exists r'. split; [by apply list_elem_of_further | done].
    + intros [H | (r' & [-> | Hr']%elem_of_cons & Hl' & E)].
      * left. by apply elem_of_union_r.
      * left. apply elem_of_union_l, elem_of_singleton. done.
      * right. by exists r'.
    + intros [H | (r' & Hr' & H)]; [by left |].
      right. exists r'. split; [by apply list_elem_of_further | done].
    + intros [H | (r' & [-> | Hr']%elem_of_cons & Hl' & E)]; [by left | lia |].
      right. by exists r'.
Qed.

(** X4. Loading a store whose lines all parse: the Link column is found by
    name, at its first occurrence in the header; a key is loaded exactly when
    it is the normalized value of that column in some record long enough to
    have it.  Without a Link column in the header nothing is loaded. *)
Theorem existing_links_lookup (header : row) (records : list row) :
  ∃ links,
    get_existing_job_links (CsvFile (Line header :: map Line records)) = Returns links
    ∧ match index_of "Link" header with
      | None => links = ∅ ∧ "Link" ∉ header
      | Some i =>
          nth i header "" = "Link"
          ∧ (∀ j, (j < i)%nat → nth j header "" ≠ "Link")
          ∧ ∀ k, k ∈ links
                 ↔ ∃ r, r ∈ records ∧ (i < length r)%nat
                        ∧ normalize_linkedin_job_url (nth i r "") = k
      end.
Proof.
  rewrite get_existing_returns. eexists. split; [done |].
  cbn [existing_of read_existing_links].
  destruct (index_of "Link" header) as [i|] eqn:E.
  - destruct (index_of_Some _ _ _ E) as [Hn Hf].
    destruct header as [|h header]; [done |].
    split_and!; [done | done |]. intros k.
    rewrite collect_links_lookup. split; [| by right].
    by intros [?%elem_of_empty | H].
  - split; [by destruct header | by apply index_of_None].
Qed.

Lemma scrape_try_same_emptiness f f' s start max :
  csv_is_empty f = csv_is_empty f' →
  scrape_try f s start max = scrape_try f' s start max.
Proof. intros H. unfold scrape_try. by rewrite H. Qed.

(** X5. A store whose header has no Link column is not consulted at all:
    whatever lines follow the header, parsable or not, the run is the one made
    on a store holding that header alone, with an empty seen-set at the start. *)
Theorem store_without_link_column (header : row) (lines : list csv_line)
    (progress : progress_file) (s : session) (max : Z) :
  index_of "Link" header = None →
  get_existing_job_links (CsvFile (Line header :: lines)) = Returns ∅
  ∧ scrape_linkedin_jobs (CsvFile (Line header :: lines)) progress s max
    = scrape_linkedin_jobs (CsvFile [Line header]) progress s max.
Proof.
  intros H.
  assert (E : ∀ ls, existing_of (CsvFile (Line header :: ls)) = ∅).
  { intros ls. cbn. rewrite H. by destruct header. }
  split; [by rewrite get_existing_returns, E |].
  rewrite !scrape_run, !E.
  by rewrite (scrape_try_same_emptiness (CsvFile (Line header :: lines))
                (CsvFile [Line header])).
Qed.

Lemma store_without_link_column_witness :
  get_existing_job_links
    (CsvFile (Line ["Title"; "Company"] :: Line ["Data Analyst"; "Acme"] :: Unparsable :: []))
  = Returns ∅
  ∧ scrape_linkedin_jobs
      (CsvFile (Line ["Title"; "Company"] :: Line ["Data Analyst"; "Acme"] :: Unparsable :: []))
      ProgressMissing growing_session 3
    = scrape_linkedin_jobs (CsvFile [Line ["Title"; "Company"]])
        ProgressMissing growing_session 3.
Proof.
  exact (store_without_link_column ["Title"; "Company"]
           (Line ["Data Analyst"; "Acme"] :: Unparsable :: [])
           ProgressMissing growing_session 3 eq_refl).
Defined.

(** ** Extraction on its own *)

Lemma new_rows_sublist (job_cards : list job_card) (links : gset string) :
  new_rows job_cards links `sublist_of` map card_row job_cards.
Proof.
  revert links. induction job_cards as [|c rest IH]; intros links; cbn [new_rows map].
  - constructor.
  - destruct (_ && _); [apply sublist_skip | apply sublist_cons]; apply IH.
Qed.

Lemma new_rows_none (job_cards : list job_card) (links : gset string) :
  (∀ c, c ∈ job_cards → PyStr.truthy (card_key c) = false ∨ card_key c ∈ links) →
  new_rows job_cards links = [].
Proof.
  induction job_cards as [|c rest IH]; intros H; cbn [new_rows]; [done |].
  assert (PyStr.truthy (card_key c) && negb (bool_decide (card_key c ∈ links)) = false) as ->.
  { destruct (H c) as [-> | Hin]; [apply list_elem_of_here | done |].
    rewrite (bool_decide_eq_true_2 _ Hin). apply andb_false_r. }
  apply IH. intros c' Hc'. apply H. by apply list_elem_of_further.
Qed.

(** After a pass over the cards each of them has an empty key or a key in
    the seen-set. *)
Lemma new_rows_covers (job_cards : list job_card) (links : gset string) (c : job_card) :
  c ∈ job_cards →
  PyStr.truthy (card_key c) = false
  ∨ card_key c ∈ list_to_set (map row_link (new_rows job_cards links)) ∪ links.
Proof.
  revert links. induction job_cards as [|c0 rest IH]; intros links Hc;
    [by apply elem_of_nil in Hc |].
  cbn [new_rows]. apply elem_of_cons in Hc as [-> | Hc].
  - destruct (PyStr.truthy (card_key c0)) eqn:Ht; [| by left]. right.
    case_bool_decide as Hin; cbn [negb andb].
    + by apply elem_of_union_r.
    + cbn [map list_to_set]. change (row_link (card_row c0)) with (card_key c0).
      set_solver.
  - destruct (_ && _).
    + destruct (IH ({[card_key c0]} ∪ links) Hc) as [H | H]; [by left | right].
      cbn [map list_to_set]. set_solver.
    + by apply IH.
Qed.

(** X7. Extraction is idempotent on what has been seen: after a page has
    been extracted, extracting a page that shows only job cards of that page
    (the same page again, in particular) writes no row, leaves the seen-set
    and the counter as they are, and reports the number of cards shown. *)
Theorem extract_again_writes_nothing (view view' : page_view) (n : Z)
    (sid sid' : scroll_id) (links : gset string) :
  (∀ c, c ∈ view_cards view' → c ∈ view_cards view) →
  let r1 := extract_and_save_jobs view n sid links in
  let r2 := extract_and_save_jobs view' r1.1.1.1 sid' r1.1.2 in
  rows_written r2.2 = []
  ∧ r2.1.2 = r1.1.2
  ∧ r2.1.1 = (r1.1.1.1, Z.of_nat (length (view_cards view'))).
Proof.
  intros Hsub. cbn zeta. rewrite !extract_run. cbn zeta. cbn [fst snd].
  rewrite rows_written_batch.
  assert (new_rows (view_cards view')
            (list_to_set (map row_link (new_rows (view_cards view) links)) ∪ links)
          = []) as ->.
  { apply new_rows_none. intros c Hc. by apply new_rows_covers, Hsub. }
  cbn. split_and!; [done | set_solver |]. f_equal. lia.
Qed.

Lemma extract_again_writes_nothing_witness :
  rows_written
    (extract_and_save_jobs (JobCards ten_jobs)
       (extract_and_save_jobs (JobCards twelve_jobs) 0 (ScrollNo 1) ∅).1.1.1
       (ScrollNo 2)
       (extract_and_save_jobs (JobCards twelve_jobs) 0 (ScrollNo 1) ∅).1.2).2
  = [].
Proof.
  refine (proj1 (extract_again_writes_nothing (JobCards twelve_jobs) (JobCards ten_jobs)
                   0 (ScrollNo 1) (ScrollNo 2) ∅ _)).
  intros c Hc. apply elem_of_app. by left.
Defined.


(** ** Where rows come from *)

Lemma new_rows_from (job_cards : list job_card) (links : gset string) (w : row) :
  w ∈ new_rows job_cards links → ∃ c, c ∈ job_cards ∧ w = card_row c.
Proof.
  intros Hw. pose proof (elem_of_sublist _ _ _ Hw (new_rows_sublist job_cards links)) as H.
  apply list_elem_of_fmap in H as (c & -> & Hc). by exists c.
Qed.

Lemma loop_body_rows_from cur obs v links (w : row) :
  w ∈ rows_written (loop_body cur obs v links).2 →
  ∃ clicked view c, obs = StepView clicked view ∧ c ∈ view_cards view ∧ w = card_row c.
Proof.
  destruct obs as [|clicked view].
  - rewrite loop_body_fault. by intros ?%elem_of_nil.
  - rewrite loop_body_rows. intros (c & Hc & ->)%new_rows_from. by exists clicked, view, c.
Qed.

Lemma scroll_loop_rows_from feed remaining cur i v links (w : row) :
  w ∈ rows_written (scroll_loop feed remaining cur i v links).2 →
  ∃ j clicked view c,
    feed j = StepView clicked view ∧ c ∈ view_cards view ∧ w = card_row c.
Proof.
  revert cur i v links. induction remaining as [|remaining IH]; intros cur i v links.
  - by intros ?%elem_of_nil.
  - rewrite scroll_loop_S.
    pose proof (loop_body_rows_from cur (feed i) v links w) as Hb.
    destruct (loop_body cur (feed i) v links) as [[[v' leaving] links1] t1].
    cbn [snd] in Hb. destruct leaving as [exit|].
    + cbn [snd]. rewrite app_nil_r. intros Hw.
      destruct (Hb Hw) as (clicked & view & c & E & Hc & ->). by exists i, clicked, view, c.
    + specialize (IH (cur + 1)%Z (S i) v' links1).
      destruct (scroll_loop feed remaining (cur + 1) (S i) v' links1) as [[res l2] t2].
      cbn [snd] in *. rewrite rows_written_app. intros [Hw | Hw]%elem_of_app.
      * destruct (Hb Hw) as (clicked & view & c & E & Hc & ->).
        by exists i, clicked, view, c.
      * by apply IH.
Qed.

Lemma rows_written_scrape_try f s start max links :
  rows_written (scrape_try f s start max links).2 =
    if negb (page_loads s) then []
    else
      let rows := new_rows (view_cards (first_view s)) links in
      rows ++ rows_written
                (scroll_loop (feed s) (range_len start (max + 1)) start 0
                   (LoopVars
                      (if (start =? 1)%Z then Z.of_nat (length rows)
                       else Z.of_nat (size links))
                      (view_total (first_view s)) 0)
                   (list_to_set (map row_link rows) ∪ links)).2.
Proof.
  rewrite scrape_try_run. cbn zeta.
  destruct (negb (page_loads s)); cbn [snd].
  - by destruct (csv_is_empty f).
  - rewrite !rows_written_app.
    replace (rows_written (if csv_is_empty f then [WriteHeader] else [])) with (@nil row)
      by by destruct (csv_is_empty f).
    cbn [app]. f_equal.
    destruct (start =? 1)%Z; rewrite ?rows_written_app, rows_written_batch; cbn;
      by rewrite ?app_nil_r.
Qed.

(** X6. Every row a run writes is the row of a job card shown on a page the
    run extracted: it has the five columns of the header, in its order, with
    ["N/A"] for each field the card lacks and the normalized link in the Link
    column. *)
Theorem rows_come_from_cards (f : csv_file) (progress : progress_file)
    (s : session) (max : Z) :
  ∃ r,
    scrape_linkedin_jobs f progress s max = Returns r
    ∧ ∀ w, w ∈ rows_written (performed r) →
           length w = length headers
           ∧ ∃ c, shown s c
                  ∧ w = [text_or_na (card_title c); text_or_na (card_company c);
                         text_or_na (card_location c);
                         normalize_linkedin_job_url (text_or_na (card_href c));
                         post_time_of (card_listdate c)].
Proof.
  rewrite scrape_run. destruct (negb (driver_starts s)).
  { eexists. split; [done |]. by intros w ?%elem_of_nil. }
  cbn zeta. eexists. split; [done |]. cbn [performed].
  intros w. rewrite rows_written_scrape_try.
  destruct (negb (page_loads s)); [by intros ?%elem_of_nil |].
  cbn zeta. intros [Hw | Hw]%elem_of_app.
  - apply new_rows_from in Hw as (c & Hc & ->). split; [done |].
    exists c. split; [by left | done].
  - apply scroll_loop_rows_from in Hw as (j & clicked & view & c & E & Hc & ->).
    split; [done |]. exists c. split; [| done]. right. by exists j, clicked, view.
Qed.

(** ** The store from run to run *)

Lemma omap_line_row (records : list row) : omap line_row (map Line records) = records.
Proof. induction records as [|r records IH]; cbn; [done | by rewrite IH]. Qed.

Lemma standard_store_shape (f : csv_file) :
  standard_store f →
  (csv_is_empty f = true ∧ store_records f = [] ∧ existing_of f = ∅
   ∧ ∀ t, csv_after f t = CsvFile (lines_written t))
  ∨ (csv_is_empty f = false
     ∧ f = CsvFile (Line headers :: map Line (store_records f))).
Proof.
  intros [-> | [-> | (records & ->)]].
  - left. by split_and!.
  - left. by split_and!.
  - right. split; [done |]. cbn. by rewrite omap_line_row.
Qed.

(** X9. The header is written once: a run that starts its driver appends
    the header first exactly when the file was missing or empty, and after it
    only rows.  So a standard store stays one: after the run it is the
    header followed by the records it held and the rows the run wrote. *)
Theorem store_stays_standard (f : csv_file) (progress : progress_file)
    (s : session) (max : Z) :
  driver_starts s = true →
  ∃ r,
    scrape_linkedin_jobs f progress s max = Returns r
    ∧ lines_written (performed r)
      = (if csv_is_empty f then [Line headers] else [])
        ++ map Line (rows_written (performed r))
    ∧ (standard_store f →
       csv_after f (performed r)
       = CsvFile (Line headers
                  :: map Line (store_records f ++ rows_written (performed r)))).
Proof.
  intros Hd. rewrite scrape_run, Hd. cbn [negb]. cbn zeta.
  eexists. split; [done |]. cbn [performed].
  pose proof (lines_written_scrape_try f s (load_progress progress + 1) max (existing_of f))
    as Hl.
  split; [exact Hl |]. intros Hf.
  destruct (standard_store_shape f Hf) as [(He & Hr & _ & Ha) | (He & Ef)].
  - rewrite Ha, Hl, He, Hr. done.
  - rewrite Ef at 1. cbn [csv_after]. rewrite Hl, He. cbn [app].
    by rewrite <- map_app.
Qed.

Lemma store_stays_standard_witness :
  ∃ r,
    scrape_linkedin_jobs (CsvFile (Line headers :: map Line two_records))
      (ProgressInt 3) growing_session 5 = Returns r
    ∧ lines_written (performed r)
      = (if csv_is_empty (CsvFile (Line headers :: map Line two_records))
         then [Line headers] else [])
        ++ map Line (rows_written (performed r))
    ∧ (standard_store (CsvFile (Line headers :: map Line two_records)) →
       csv_after (CsvFile (Line headers :: map Line two_records)) (performed r)
       = CsvFile (Line headers
                  :: map Line (store_records (CsvFile (Line headers :: map Line two_records))
                               ++ rows_written (performed r)))).
Proof.
  exact (store_stays_standard (CsvFile (Line headers :: map Line two_records))
           (ProgressInt 3) growing_session 5 eq_refl).
Defined.

Lemma existing_after_run (f : csv_file) (s : session) (start max : Z) :
  standard_store f →
  let t := (scrape_try f s start max (existing_of f)).2 in
  existing_of (csv_after f t)
  = list_to_set (map row_link (rows_written t)) ∪ existing_of f.
Proof.
  intros Hf. cbn zeta.
  destruct (dedups_scrape_try f s start max (existing_of f)) as (_ & F & _).
  pose proof (reload_standard f _ Hf (lines_written_scrape_try f s start max (existing_of f)))
    as H.
  rewrite get_existing_returns in H.
  assert (H' : ∀ r, r ∈ rows_written (scrape_try f s start max (existing_of f)).2 →
                    row_key r = row_link r ∧ row_link r ≠ "").
  { intros r Hr. by destruct (F r Hr) as (_ & ? & ?). }
  specialize (H H'). by injection H.
Qed.

(** X10. No key is written twice across runs: when a run on a standard store
    is followed by another run on the file it left, whatever the pages and
    the progress file of the second, the rows of the two runs together carry
    pairwise different keys, none of them a key the store held at first. *)
Theorem two_runs_no_duplicate (f : csv_file) (p1 p2 : progress_file)
    (s1 s2 : session) (m1 m2 : Z) :
  standard_store f →
  driver_starts s1 = true →
  ∃ r1 r2,
    scrape_linkedin_jobs f p1 s1 m1 = Returns r1
    ∧ scrape_linkedin_jobs (csv_after f (performed r1)) p2 s2 m2 = Returns r2
    ∧ NoDup (map row_key (rows_written (performed r1) ++ rows_written (performed r2)))
    ∧ ∀ w, w ∈ rows_written (performed r1) ++ rows_written (performed r2) →
           row_key w ∉ existing_of f.
Proof.
  intros Hf Hd. rewrite scrape_run, Hd. cbn [negb]. cbn zeta.
  set (t1 := (scrape_try f s1 (load_progress p1 + 1) m1 (existing_of f)).2).
  destruct (dedups_scrape_try f s1 (load_progress p1 + 1) m1 (existing_of f))
    as (N1 & F1 & _). fold t1 in N1, F1.
  pose proof (existing_after_run f s1 (load_progress p1 + 1) m1 Hf) as E1.
  cbn zeta in E1. fold t1 in E1.
  assert (K1 : map row_key (rows_written t1) = map row_link (rows_written t1)).
  { apply keys_are_links. intros r Hr. by destruct (F1 r Hr) as (_ & ? & _). }
  eexists. cbn [performed]. rewrite scrape_run.
  destruct (negb (driver_starts s2)).
  { eexists. split; [done |]. split; [done |]. cbn [performed rows_written].
    rewrite app_nil_r, K1. split; [done |].
    intros w Hw. destruct (F1 w Hw) as (Hn & -> & _). done. }
  cbn zeta. fold t1. eexists. split; [done |]. split; [done |]. cbn [performed].
  set (f1 := csv_after f t1) in *.
  set (t2 := (scrape_try f1 s2 (load_progress p2 + 1) m2 (existing_of f1)).2).
  destruct (dedups_scrape_try f1 s2 (load_progress p2 + 1) m2 (existing_of f1))
    as (N2 & F2 & _). fold t2 in N2, F2.
  assert (K2 : map row_key (rows_written t2) = map row_link (rows_written t2)).
  { apply keys_are_links. intros r Hr. by destruct (F2 r Hr) as (_ & ? & _). }
  rewrite map_app, K1, K2. split.
  - apply NoDup_app. split_and!; [done | | done].
    intros k Hk1 (w & -> & Hw)%list_elem_of_fmap.
    destruct (F2 w Hw) as (Hn & _). apply Hn. rewrite E1.
    by apply elem_of_union_l, elem_of_list_to_set.
  - intros w [Hw | Hw]%elem_of_app.
    + destruct (F1 w Hw) as (Hn & -> & _). done.
    + destruct (F2 w Hw) as (Hn & -> & _). intros Hin. apply Hn. rewrite E1.
      by apply elem_of_union_r.
Qed.

Lemma two_runs_no_duplicate_witness :
  ∃ r1 r2,
    scrape_linkedin_jobs CsvMissing ProgressMissing growing_session 2 = Returns r1
    ∧ scrape_linkedin_jobs (csv_after CsvMissing (performed r1)) (ProgressInt 2)
        growing_session 4 = Returns r2
    ∧ NoDup (map row_key (rows_written (performed r1) ++ rows_written (performed r2)))
    ∧ ∀ w, w ∈ rows_written (performed r1) ++ rows_written (performed r2) →
           row_key w ∉ existing_of CsvMissing.
Proof.
  exact (two_runs_no_duplicate CsvMissing ProgressMissing (ProgressInt 2)
           growing_session growing_session 2 4 (or_introl eq_refl) eq_refl).
Defined.

(** ** Checkpoints of a run *)


Lemma elem_of_Zseq (lo x : Z) (n : nat) :
  x ∈ Zseq lo n → (lo ≤ x < lo + Z.of_nat n)%Z.
Proof.
  revert lo. induction n as [|n IH]; intros lo; cbn [Zseq].
  - by intros ?%elem_of_nil.
  - intros [-> | H]%elem_of_cons; [lia |]. apply IH in H. lia.
Qed.







(** X13. A run that cannot start leaves the records and the checkpoint
    alone: when the driver does not start nothing is done at all, and when
    the page does not load the only action is the header written to a missing
    or empty file.  In both cases the run returns 0, makes no iteration,
    writes no row and saves no number. *)
Theorem failed_start_changes_nothing (f : csv_file) (progress : progress_file)
    (s : session) (max : Z) :
  driver_starts s = false ∨ page_loads s = false →
  ∃ r,
    scrape_linkedin_jobs f progress s max = Returns r
    ∧ returned r = 0%Z
    ∧ exit_of r = None
    ∧ performed r
      = (if driver_starts s && csv_is_empty f then [WriteHeader] else [])
    ∧ progress_after progress (performed r) = progress
    ∧ (csv_is_empty f = false → csv_after f (performed r) = f).
Proof.
  intros H. rewrite scrape_run. destruct (driver_starts s); cbn [negb andb].
  - destruct H as [H | H]; [done |]. cbn zeta.
    rewrite scrape_try_run, H. cbn [negb]. cbn zeta. eexists. split; [done |].
    cbn [returned exit_of performed fst snd].
    split_and!; try done.
    + by destruct (csv_is_empty f).
    + intros Hf. rewrite Hf. destruct f as [|lines]; [done |]. cbn. by rewrite app_nil_r.
  - eexists. split; [done |]. cbn. split_and!; try done.
    intros Hf. destruct f as [|lines]; [done |]. cbn. by rewrite app_nil_r.
Qed.

Lemma failed_start_changes_nothing_witness :
  ∃ r,
    scrape_linkedin_jobs (CsvFile (Line headers :: map Line two_records)) (ProgressInt 3)
      (Session true false (JobCards ten_jobs) still_feed) 1000 = Returns r
    ∧ returned r = 0%Z
    ∧ exit_of r = None
    ∧ performed r = []
    ∧ progress_after (ProgressInt 3) (performed r) = ProgressInt 3
    ∧ (csv_is_empty (CsvFile (Line headers :: map Line two_records)) = false →
       csv_after (CsvFile (Line headers :: map Line two_records)) (performed r)
       = CsvFile (Line headers :: map Line two_records)).
Proof.
  exact (failed_start_changes_nothing (CsvFile (Line headers :: map Line two_records))
           (ProgressInt 3) (Session true false (JobCards ten_jobs) still_feed) 1000
           (or_intror eq_refl)).
Defined.

(** X14. The limit on iterations is kept: every iteration of a run is
    numbered from [k + 1] to [max_scroll_attempts], [k] being what the
    progress file gave; so there are at most [max_scroll_attempts - k] of
    them, and none when [k] has reached the limit. *)
Theorem attempts_within_range (f : csv_file) (progress : progress_file)
    (s : session) (max : Z) :
  ∃ r,
    scrape_linkedin_jobs f progress s max = Returns r
    ∧ (∀ n, n ∈ attempts (performed r) → (load_progress progress + 1 ≤ n ≤ max)%Z)
    ∧ (Z.of_nat (length (attempts (performed r)))
       ≤ Z.max 0 (max - load_progress progress))%Z.
Proof.
  rewrite scrape_run. destruct (negb (driver_starts s)).
  { eexists. split; [done |]. cbn. split; [by intros n ?%elem_of_nil | lia]. }
  cbn zeta. eexists. split; [done |]. cbn [performed].
  rewrite attempts_scrape_try. destruct (negb (page_loads s)).
  { cbn. split; [by intros n ?%elem_of_nil | lia]. }
  cbn zeta.
  match goal with |- context [scroll_loop ?a ?b ?c ?d ?e ?g] =>
    destruct (scroll_loop_attempts a b c d e g) as ((n0 & Hn & ->) & _) end.
  unfold range_len in Hn. split.
  - intros n Hin%elem_of_Zseq. lia.
  - rewrite Zseq_length. lia.
Qed.

(** ** Scrolling to the bottom *)

(** X15. [scroll_to_bottom_human_like] scrolls at least once and at most
    three times; it stops at the first scroll after which the document height
    is the same as before it and then returns [True]; it returns [False]
    exactly when each of the three scrolls changed the height. *)
Theorem scroll_to_bottom_stops (heights : nat → Z) :
  let r := scroll_to_bottom_human_like heights in
  (1 ≤ r.2 ≤ 3)%nat
  ∧ (∀ i, (S i < r.2)%nat → heights (S i) ≠ heights i)
  ∧ (r.1 = true ↔ heights r.2 = heights (r.2 - 1)%nat)
  ∧ (r.1 = true ↔ ∃ i, (i < 3)%nat ∧ heights (S i) = heights i)
  ∧ (r.1 = false → r.2 = 3%nat).
Proof.
  unfold scroll_to_bottom_human_like. cbn.
  destruct (Z.eqb_spec (heights 1%nat) (heights 0%nat)) as [E1 | E1]; cbn.
  { split; [lia |]. split; [intros i Hi; lia |]. split; [done |]. split; [| done].
    split; [| done]. intros _. exists 0%nat. split; [lia | done]. }
  destruct (Z.eqb_spec (heights 2%nat) (heights 1%nat)) as [E2 | E2]; cbn.
  { split; [lia |]. split; [intros [|i] Hi; [done | lia] |].
    split; [done |]. split; [| done].
    split; [| done]. intros _. exists 1%nat. split; [lia | done]. }
  destruct (Z.eqb_spec (heights 3%nat) (heights 2%nat)) as [E3 | E3]; cbn.
  { split; [lia |]. split; [intros [|[|i]] Hi; [done | done | lia] |].
    split; [done |]. split; [| done].
    split; [| done]. intros _. exists 2%nat. split; [lia | done]. }
  split; [lia |]. split; [intros [|[|i]] Hi; [done | done | lia] |].
  split; [split; [done | intros E; by destruct E3] |]. split; [| done].
  split; [done |]. intros ([|[|[|i]]] & Hi & E); [done | done | done | lia].
Qed.

(** ** The main block *)



(** ** Counting and completeness *)

Lemma dedups_size {A} (m : M A) (links : gset string) :
  dedups m →
  size (m links).1.2 = (size links + length (rows_written (m links).2))%nat.
Proof.
  intros H. destruct (H links) as (N & F & E). rewrite E.
  rewrite size_union.
  - rewrite size_list_to_set, length_map by done. lia.
  - intros k Hk%elem_of_list_to_set Hin.
    apply list_elem_of_fmap in Hk as (r & -> & Hr).
    by destruct (F r Hr) as (Hn & _).
Qed.

(** X17. The seen-set grows by one key for each row written: at the end of
    a run that starts its driver it has as many keys as were loaded from the
    store plus the number of rows the run wrote, and it holds every key that
    was loaded. *)
Theorem seen_set_counts_rows (f : csv_file) (progress : progress_file)
    (s : session) (max : Z) :
  driver_starts s = true →
  ∃ r,
    scrape_linkedin_jobs f progress s max = Returns r
    ∧ size (links_of r)
      = (size (existing_of f) + length (rows_written (performed r)))%nat
    ∧ existing_of f ⊆ links_of r.
Proof.
  intros Hd. rewrite scrape_run, Hd. cbn [negb]. cbn zeta.
  eexists. split; [done |]. cbn [links_of performed]. split.
  - apply dedups_size, dedups_scrape_try.
  - destruct (dedups_scrape_try f s (load_progress progress + 1) max (existing_of f))
      as (_ & _ & ->). set_solver.
Qed.

Lemma seen_set_counts_rows_witness :
  ∃ r,
    scrape_linkedin_jobs (CsvFile (Line headers :: map Line two_records)) (ProgressInt 3)
      growing_session 9 = Returns r
    ∧ size (links_of r)
      = (size (existing_of (CsvFile (Line headers :: map Line two_records)))
         + length (rows_written (performed r)))%nat
    ∧ existing_of (CsvFile (Line headers :: map Line two_records)) ⊆ links_of r.
Proof.
  exact (seen_set_counts_rows (CsvFile (Line headers :: map Line two_records))
           (ProgressInt 3) growing_session 9 eq_refl).
Defined.






(** ** A button that is always there *)

(** X19. A click counts as progress whatever it brings: while every
    iteration reports the "See more jobs" button as clicked, the stall
    counter stays at 0 and the loop is never left by the stall break; it
    runs through the whole range, saving every iteration. *)
Theorem always_clicked_never_stalls (feed : nat → step_obs) (remaining : nat)
    (cur : Z) (i : nat) (v : loop_vars) (links : gset string) :
  (∀ j, ∃ view, feed j = StepView true view) →
  let r := scroll_loop feed remaining cur i v links in
  r.1.1.2 = RangeExhausted
  ∧ attempts r.2 = Zseq cur remaining
  ∧ saves r.2 = Zseq cur remaining
  ∧ (remaining ≠ 0%nat → no_new_jobs_consecutive_scrolls r.1.1.1 = 0%Z).
Proof.
  intros Hf. revert cur i v links.
  induction remaining as [|remaining IH]; intros cur i v links.
  - by cbn.
  - cbn zeta. rewrite scroll_loop_S. destruct (Hf i) as [view ->].
    rewrite loop_body_view. cbn zeta. cbn [negb andb].
    match goal with |- context [scroll_loop feed remaining ?c ?j ?w ?l] =>
      specialize (IH c j w l); cbn zeta in IH;
      assert (Hw : no_new_jobs_consecutive_scrolls w = 0%Z) by done;
      destruct (scroll_loop feed remaining c j w l) as [[[vf ex] lf] tf] eqn:El end.
    cbn [fst snd] in *. destruct IH as (-> & Ha & Hs & Hz).
    cbn. rewrite !attempts_app, !saves_app, attempts_batch, saves_batch. cbn.
    rewrite Ha, Hs. split_and!; try done.
    intros _. destruct remaining as [|remaining']; [| by apply Hz].
    cbn in El. by injection El as <- _ _.
Qed.

Lemma always_clicked_never_stalls_witness :
  (scroll_loop (λ _, StepView true (JobCards [])) 8 1 0 (LoopVars 0 0 0) ∅).1.1.2
  = RangeExhausted
  ∧ attempts (scroll_loop (λ _, StepView true (JobCards [])) 8 1 0 (LoopVars 0 0 0) ∅).2
    = Zseq 1 8
  ∧ saves (scroll_loop (λ _, StepView true (JobCards [])) 8 1 0 (LoopVars 0 0 0) ∅).2
    = Zseq 1 8
  ∧ (8%nat ≠ 0%nat →
     no_new_jobs_consecutive_scrolls
       (scroll_loop (λ _, StepView true (JobCards [])) 8 1 0 (LoopVars 0 0 0) ∅).1.1.1
     = 0%Z).
Proof.
  refine (always_clicked_never_stalls (λ _, StepView true (JobCards [])) 8 1 0
            (LoopVars 0 0 0) ∅ _).
  intros j. by exists (JobCards []).
Defined.
